(** * banks_project.py: the largest-banks ETL pipeline

    A shallow embedding of [extract], [transform], [load_to_csv] and the
    [__main__] script of [banks_project.py], together with the parts of the
    Python run time and of the libraries they call: [str.strip], [float],
    [numpy.round], the BeautifulSoup tree queries, the pandas DataFrame
    operations and [csv.writer].

    Conventions.
    - A Python [str] is a Rocq [string]; a character is a code point below 256.
    - A Python [float] is a primitive binary64 float.
    - A DataFrame is a mutable object: functions that receive one receive a
      location in a store, and assignments to a column update the store.
    - An exception is a value of [exn]; a call returns [Ok v] or [Raise e]. *)

From Stdlib Require Import ZArith Floats Ascii String List Lia DecimalString.
From stdpp Require Import base option list gmap strings.

#[local] Open Scope Z_scope.

(** ** Python strings *)

Module PyStr.

Definition code (c : ascii) : Z := Z.of_N (N_of_ascii c).

Definition chr (n : nat) : ascii := ascii_of_nat n.

(** [str.isspace] on one character: the ASCII separators, NEL and NBSP. *)
Definition isspace (c : ascii) : bool :=
  let n := code c in
  ((9 <=? n) && (n <=? 13)) || ((28 <=? n) && (n <=? 32))
  || (n =? 133) || (n =? 160).

Fixpoint lstrip (s : string) : string :=
  match s with
  | EmptyString => EmptyString
  | String c s' => if isspace c then lstrip s' else s
  end.

Fixpoint rstrip (s : string) : string :=
  match s with
  | EmptyString => EmptyString
  | String c s' =>
      match rstrip s' with
      | EmptyString => if isspace c then EmptyString else String c EmptyString
      | r => String c r
      end
  end.

(** [s.strip()] *)
Definition strip (s : string) : string := rstrip (lstrip s).

Definition is_empty (s : string) : bool :=
  match s with EmptyString => true | _ => false end.

Definition isdigit (c : ascii) : bool :=
  let n := code c in (48 <=? n) && (n <=? 57).

Definition digit_value (c : ascii) : Z := code c - 48.

(** ASCII lower-casing, as the C run time does it for [inf] and [nan]. *)
Definition lower (c : ascii) : ascii :=
  let n := code c in
  if (65 <=? n) && (n <=? 90) then ascii_of_N (Z.to_N (n + 32)) else c.

Fixpoint lower_str (s : string) : string :=
  match s with
  | EmptyString => EmptyString
  | String c s' => String (lower c) (lower_str s')
  end.

Fixpoint contains (p : ascii -> bool) (s : string) : bool :=
  match s with
  | EmptyString => false
  | String c s' => p c || contains p s'
  end.

Definition ascii_eqb (a b : ascii) : bool := code a =? code b.

(** [sep.join(parts)] *)
Fixpoint join (sep : string) (parts : list string) : string :=
  match parts with
  | [] => EmptyString
  | [p] => p
  | p :: ps => p +:+ sep +:+ join sep ps
  end.

Fixpoint concat (parts : list string) : string :=
  match parts with
  | [] => EmptyString
  | p :: ps => p +:+ concat ps
  end.

(** [c * n] for a one-character string [c]. *)
Fixpoint replicate (n : nat) (c : ascii) : string :=
  match n with
  | O => EmptyString
  | S n' => String c (replicate n' c)
  end.

(** [str(n)] for a non-negative integer. *)
Definition of_Z (n : Z) : string :=
  NilZero.string_of_uint (N.to_uint (Z.to_N n)).

End PyStr.

(** ** Python floats: [float(s)], [repr(x)] and [numpy.round(x, 2)] *)

Module PyFloat.
Import PyStr.

(** *** Arithmetic *)

Definition two52 : float := 4503599627370496%float.

(** [rint]: round to the nearest integer, ties to even, in the default
    rounding mode.  Below 2^52 adding and subtracting 2^52 rounds exactly
    so; from 2^52 on every float is an integer.  The sign of the argument
    is kept, so [rint(-0.3)] is [-0.0]. *)
Definition rint (x : float) : float :=
  if (PrimFloat.abs x <? two52)%float then
    let r := (PrimFloat.abs x + two52 - two52)%float in
    if PrimFloat.get_sign x then (- r)%float else r
  else x.

(** [numpy.round(x, 2)]: multiply by [10**2], [rint], divide by [10**2]. *)
Definition np_round2 (x : float) : float := (rint (x * 100) / 100)%float.

(** The value of a finite float in units of 2^-1074, the least positive
    float: every finite float is a whole number of them.  Infinities and
    NaN have none. *)
Definition scaled (x : float) : option Z :=
  match Prim2SF x with
  | S754_zero _ => Some 0
  | S754_finite s m e => Some (cond_Zopp s (Zpos m * 2 ^ (e + 1074)))
  | _ => None
  end.

(** [k] is an integer nearest to [n / d], and the even one if there are two. *)
Definition nearest_even (n d k : Z) : Prop :=
  2 * Z.abs (n - k * d) <= d ∧ (2 * Z.abs (n - k * d) = d -> Z.even k = true).

(** The mantissa of 2^52. *)
Definition m52 : positive := 4503599627370496.

(** [shifted M k mrs]: [mrs] is what is left of [M] after [k] bits were
    shifted out: the quotient by [2 ^ k], whether the remainder reaches
    half of [2 ^ k], and whether it differs from that half (or from 0). *)
Definition shifted (M k : Z) (mrs : shr_record) : Prop :=
  0 <= shr_m mrs
  ∧ ∃ rem, M = shr_m mrs * 2 ^ k + rem ∧ 0 <= rem < 2 ^ k
           ∧ (shr_r mrs = true <-> 2 ^ k <= 2 * rem)
           ∧ (shr_s mrs = true <-> 2 * rem ≠ (if shr_r mrs then 2 ^ k else 0)).

(** *** [float(s)] *)

(** The nearest binary64 to the rational [n / d] ([n], [d] positive),
    ties to even.  The quotient is taken with at least 66 significant bits
    and a sticky last bit, then rounded once. *)
Definition round_ratio (neg : bool) (n d : Z) : spec_float :=
  let k := Z.max 0 (66 + Z.log2 d - Z.log2 n) in
  let q := (n * 2 ^ k) / d in
  let r := (n * 2 ^ k) mod d in
  let m := 2 * q + (if r =? 0 then 0 else 1) in
  binary_round prec emax neg (Z.to_pos m) (- k - 1).

(** The nearest binary64 to [digits * 10 ^ e10].  A decimal exponent beyond
    the range of the format is decided without computing the power. *)
Definition of_decimal (neg : bool) (digits e10 : Z) : float :=
  if digits =? 0 then (if neg then PrimFloat.neg_zero else PrimFloat.zero)
  else if 400 <? e10 then (if neg then PrimFloat.neg_infinity else PrimFloat.infinity)
  else if e10 + Z.log2 digits <? - 400 then (if neg then PrimFloat.neg_zero else PrimFloat.zero)
  else if 0 <=? e10 then SF2Prim (round_ratio neg (digits * 10 ^ e10) 1)
  else SF2Prim (round_ratio neg digits (10 ^ (- e10))).

(** Underscores are accepted between two digits only, and dropped. *)
Fixpoint drop_underscores (prev : option ascii) (s : string) : option string :=
  match s with
  | EmptyString =>
      match prev with
      | Some p => if ascii_eqb p "_" then None else Some EmptyString
      | None => Some EmptyString
      end
  | String c s' =>
      if ascii_eqb c "_" then
        match prev with
        | Some p => if isdigit p then drop_underscores (Some c) s' else None
        | None => None
        end
      else
        match prev with
        | Some p =>
            if ascii_eqb p "_" && negb (isdigit c) then None
            else String c <$> drop_underscores (Some c) s'
        | None => String c <$> drop_underscores (Some c) s'
        end
  end.

(** A run of decimal digits: its value continuing [acc], its length, the rest. *)
Fixpoint span_digits (acc : Z) (s : string) : Z * Z * string :=
  match s with
  | String c s' =>
      if isdigit c then
        let '(v, n, rest) := span_digits (10 * acc + digit_value c) s' in
        (v, n + 1, rest)
      else (acc, 0, s)
  | EmptyString => (acc, 0, s)
  end.

Definition split_sign (s : string) : bool * string :=
  match s with
  | String c s' =>
      if ascii_eqb c "-" then (true, s')
      else if ascii_eqb c "+" then (false, s')
      else (false, s)
  | EmptyString => (false, s)
  end.

(** The exponent part: nothing, or [e] or [E], an optional sign and at
    least one digit, up to the end of the string. *)
Definition parse_exponent (s : string) : option Z :=
  match s with
  | EmptyString => Some 0
  | String c s' =>
      if ascii_eqb (lower c) "e" then
        let '(neg, s1) := split_sign s' in
        let '(v, n, rest) := span_digits 0 s1 in
        if (0 <? n) && is_empty rest then Some (if neg then - v else v)
        else None
      else None
  end.

(** An unsigned decimal literal: digits, an optional point and more digits
    (at least one digit in all), an optional exponent. *)
Definition parse_decimal (neg : bool) (s : string) : option float :=
  let '(v1, n1, rest1) := span_digits 0 s in
  let '(v2, n2, rest2) :=
    match rest1 with
    | String c s' =>
        if ascii_eqb c "." then span_digits v1 s' else (v1, 0, rest1)
    | EmptyString => (v1, 0, rest1)
    end in
  if 0 <? n1 + n2 then
    e ← parse_exponent rest2; Some (of_decimal neg v2 (e - n2))
  else None.

Definition parse_inf_or_nan (neg : bool) (s : string) : option float :=
  let l := lower_str s in
  if String.eqb l "inf" || String.eqb l "infinity" then
    Some (if neg then PrimFloat.neg_infinity else PrimFloat.infinity)
  else if String.eqb l "nan" then Some PrimFloat.nan
  else None.

(** [float(s)]: [None] stands for [ValueError]. *)
Definition py_float (s : string) : option float :=
  s1 ← drop_underscores None (strip s);
  let '(neg, s2) := split_sign s1 in
  match parse_decimal neg s2 with
  | Some x => Some x
  | None => parse_inf_or_nan neg s2
  end.

(** *** [repr(x)] *)

(** [cmp_scaled c p n d] compares [c * 10 ^ p] with [n / d]. *)
Definition cmp_scaled (c p n d : Z) : comparison :=
  if 0 <=? p then (c * 10 ^ p * d ?= n) else (c * d ?= n * 10 ^ (- p)).

(** The least [k] from [k] on with [n / d < 10 ^ k]. *)
Fixpoint decimal_point (fuel : nat) (n d k : Z) : Z :=
  match fuel with
  | O => k
  | S fuel' =>
      match cmp_scaled 1 k n d with
      | Gt => k
      | _ => decimal_point fuel' n d (k + 1)
      end
  end.

(** [c * 10 ^ p] lies in the interval from [lo / d] to [hi / d], whose
    ends belong to it when [incl]. *)
Definition in_interval (incl : bool) (lo hi d c p : Z) : bool :=
  match cmp_scaled c p lo d with
  | Gt => true | Eq => incl | Lt => false
  end &&
  match cmp_scaled c p hi d with
  | Lt => true | Eq => incl | Gt => false
  end.

Definition floor_scaled (x d p : Z) : Z :=
  if 0 <=? p then x / (d * 10 ^ p) else (x * 10 ^ (- p)) / d.

(** Of the two multiples of [10 ^ p] around [x / d], the nearer one. *)
Definition nearest_scaled (x d p : Z) : Z :=
  let c := floor_scaled x d p in
  match cmp_scaled (2 * c + 1) p (2 * x) d with
  | Gt => c
  | Lt => c + 1
  | Eq => if Z.even c then c else c + 1
  end.

(** The multiple of [10 ^ p] in the interval that is nearest to [x / d]. *)
Definition candidate (incl : bool) (lo x hi d p : Z) : option Z :=
  let c := floor_scaled x d p in
  match in_interval incl lo hi d c p, in_interval incl lo hi d (c + 1) p with
  | true, true => Some (nearest_scaled x d p)
  | true, false => Some c
  | false, true => Some (c + 1)
  | false, false => None
  end.

(** The shortest decimal in the interval, trying [n], [n + 1], ... digits;
    seventeen digits always identify a binary64. *)
Fixpoint shortest (fuel : nat) (incl : bool) (lo x hi d k n : Z) : Z * Z :=
  match fuel with
  | O => (nearest_scaled x d (k - n), k - n)
  | S fuel' =>
      match candidate incl lo x hi d (k - n) with
      | Some c => (c, k - n)
      | None => shortest fuel' incl lo x hi d k (n + 1)
      end
  end.

Fixpoint strip_zeros (fuel : nat) (c p : Z) : Z * Z :=
  match fuel with
  | O => (c, p)
  | S fuel' =>
      if (c mod 10 =? 0) && negb (c =? 0) then strip_zeros fuel' (c / 10) (p + 1)
      else (c, p)
  end.

(** The digits and the position of the decimal point of the shortest
    decimal that reads back as the finite positive float [m * 2 ^ e]:
    the float is [0.digits * 10 ^ decpt]. *)
Definition shortest_digits (m : positive) (e : Z) : string * Z :=
  let s := 2 ^ Z.max 0 (e - 2) in
  let d := 2 ^ Z.max 0 (2 - e) in
  let x := 4 * Zpos m * s in
  let hi := x + 2 * s in
  let lo := if (Zpos m =? 2 ^ 52) && (- 1074 <? e) then x - s else x - 2 * s in
  let k0 := ((Z.log2 x - Z.log2 d - 1) * 30103) / 100000 - 1 in
  let k := decimal_point 8 x d k0 in
  let '(c, p) := shortest 16 (Z.even (Zpos m)) lo x hi d k 1 in
  let '(c, p) := strip_zeros 20 c p in
  let ds := of_Z c in
  (ds, Z.of_nat (String.length ds) + p).

Definition pad2 (s : string) : string :=
  if (String.length s <? 2)%nat then String "0" s else s.

(** The layout of [repr]: positional when the decimal point falls within
    the digits or at most four places before or sixteen after their start,
    with an exponent otherwise. *)
Definition format_repr (ds : string) (decpt : Z) : string :=
  let nd := Z.of_nat (String.length ds) in
  if (- 4 <? decpt) && (decpt <=? 16) then
    if decpt <=? 0 then
      "0." +:+ replicate (Z.to_nat (- decpt)) "0" +:+ ds
    else if nd <=? decpt then
      ds +:+ replicate (Z.to_nat (decpt - nd)) "0" +:+ ".0"
    else
      substring 0 (Z.to_nat decpt) ds +:+ "." +:+
      substring (Z.to_nat decpt) (Z.to_nat (nd - decpt)) ds
  else
    substring 0 1 ds +:+
    (if 1 <? nd then "." +:+ substring 1 (Z.to_nat (nd - 1)) ds else EmptyString) +:+
    "e" +:+ (if decpt - 1 <? 0 then "-" else "+") +:+ pad2 (of_Z (Z.abs (decpt - 1))).

(** [repr(x)], which is also how numpy writes a float64 as text. *)
Definition float_repr (x : float) : string :=
  match Prim2SF x with
  | S754_zero false => "0.0"
  | S754_zero true => "-0.0"
  | S754_infinity false => "inf"
  | S754_infinity true => "-inf"
  | S754_nan => "nan"
  | S754_finite neg m e =>
      let '(ds, decpt) := shortest_digits m e in
      (if neg then "-" else EmptyString) +:+ format_repr ds decpt
  end.

End PyFloat.

(** ** Exceptions and results *)

Inductive exn :=
| IndexError
| ValueError
| KeyError (key : string)
| TypeError
| NameError
| RequestException
| OSError
| DatabaseError.

Inductive result (A : Type) :=
| Ok (v : A)
| Raise (e : exn).
Arguments Ok {A} v.
Arguments Raise {A} e.

#[global] Instance result_ret : MRet result := fun A v => Ok v.
#[global] Instance result_bind : MBind result := fun A B k r =>
  match r with
  | Ok v => k v
  | Raise e => Raise e
  end.

(** A list comprehension [[f(x) for x in xs]] whose body may raise: the
    elements are computed from left to right, up to the first exception. *)
Fixpoint comprehension {A B} (f : A -> result B) (xs : list A) : result (list B) :=
  match xs with
  | [] => Ok []
  | x :: xs' => y ← f x; ys ← comprehension f xs'; Ok (y :: ys)
  end.

(** ** The BeautifulSoup parse tree *)

Module Soup.
Import PyStr.

(** A node is a string or a tag.  [Text] is a [NavigableString] (or
    [CData]); [Comment] stands for the string classes that [get_text]
    leaves out (comments, declarations, doctypes). *)
#[warnings="-register-all"] Inductive node :=
| Text (s : string)
| Comment (s : string)
| Tag (name : string) (children : list node).

Definition is_tag (name : string) (n : node) : bool :=
  match n with
  | Tag nm _ => String.eqb nm name
  | _ => false
  end.

(** The descendants of a node, in document order. *)
Fixpoint descendants (n : node) : list node :=
  match n with
  | Tag _ ch => flat_map (fun c => c :: descendants c) ch
  | _ => []
  end.

(** [n.find_all(name)] *)
Definition find_all (name : string) (n : node) : list node :=
  List.filter (is_tag name) (descendants n).

(** [n.select('outer inner')]: the [inner] tags below [n] that have an
    [outer] tag among their ancestors, in document order.  [anc] tells
    whether an [outer] tag has been entered. *)
Fixpoint select_below (outer inner : string) (anc : bool) (n : node) : list node :=
  match n with
  | Tag nm ch =>
      let anc' := anc || String.eqb nm outer in
      flat_map (fun c =>
                  (if anc' && is_tag inner c then [c] else [])
                    ++ select_below outer inner anc' c) ch
  | _ => []
  end.

Definition select (outer inner : string) (n : node) : list node :=
  select_below outer inner false n.

(** The strings below a node that [get_text] sees, in document order. *)
Fixpoint all_strings (n : node) : list string :=
  match n with
  | Text s => [s]
  | Comment _ => []
  | Tag _ ch => flat_map all_strings ch
  end.

(** [n.get_text(strip=True)]: every string is stripped, the empty ones are
    dropped, the others are joined without a separator. *)
Definition get_text (n : node) : string :=
  concat (List.filter (fun s => negb (is_empty s)) (map strip (all_strings n))).

End Soup.

(** ** DataFrames *)

Module Frame.
Import PyStr PyFloat.

Inductive cell :=
| CStr (s : string)
| CFloat (x : float).

(** The columns of a frame, in order, each with its label. *)
Definition DataFrame := list (string * list cell).

Definition labels (df : DataFrame) : list string := map fst df.

(** [len(df)] *)
Definition nrows (df : DataFrame) : nat :=
  match df with
  | [] => O
  | (_, col) :: _ => length col
  end.

(** [df[key]] *)
Fixpoint getitem (df : DataFrame) (key : string) : result (list cell) :=
  match df with
  | [] => Raise (KeyError key)
  | (k, col) :: df' => if String.eqb k key then Ok col else getitem df' key
  end.

Fixpoint put (df : DataFrame) (key : string) (col : list cell) : DataFrame :=
  match df with
  | [] => [(key, col)]
  | (k, c) :: df' =>
      if String.eqb k key then (k, col) :: df' else (k, c) :: put df' key col
  end.

(** [df[key] = col] for a list [col]: an existing column is replaced where
    it stands, a new one is added last; a list of another length than the
    frame is refused. *)
Definition setitem (df : DataFrame) (key : string) (col : list cell) : result DataFrame :=
  match df with
  | [] => Ok [(key, col)]
  | _ => if (length col =? nrows df)%nat then Ok (put df key col) else Raise ValueError
  end.

(** The rows of a frame: [n] rows read off the columns [cols]. *)
Fixpoint transpose {A} (d : A) (n : nat) (cols : list (list A)) : list (list A) :=
  match n with
  | O => []
  | S n' => map (hd d) cols :: transpose d n' (map (@tl A) cols)
  end.

Definition rows (df : DataFrame) : list (list cell) :=
  transpose (CStr EmptyString) (nrows df) (map snd df).

(** *** [df.to_csv(path, index=False)] *)

Definition quotechar : ascii := chr 34.
Definition delimiter : ascii := ",".
(** [os.linesep] on POSIX *)
Definition lineterminator : string := String (chr 10) EmptyString.

(** The text of a cell: a string as it is, a float by its [repr], a
    missing value (NaN) as the empty [na_rep]. *)
Definition cell_text (c : cell) : string :=
  match c with
  | CStr s => s
  | CFloat x => if PrimFloat.is_nan x then EmptyString else float_repr x
  end.

Definition special (c : ascii) : bool :=
  ascii_eqb c delimiter || ascii_eqb c quotechar
  || contains (ascii_eqb c) lineterminator.

Fixpoint double_quotes (s : string) : string :=
  match s with
  | EmptyString => EmptyString
  | String c s' =>
      if ascii_eqb c quotechar then String c (String c (double_quotes s'))
      else String c (double_quotes s')
  end.

Definition quoted (s : string) : string :=
  String quotechar (double_quotes s) +:+ String quotechar EmptyString.

(** [csv.QUOTE_MINIMAL]: a field is quoted when it holds the delimiter, the
    quote character or a character of the line terminator. *)
Definition csv_field (s : string) : string :=
  if contains special s then quoted s else s.

(** [writer.writerow(fields)]; a row of one empty field is written quoted. *)
Definition writerow (fields : list string) : string :=
  match fields with
  | [EmptyString] => quoted EmptyString +:+ lineterminator
  | _ => join (String delimiter EmptyString) (map csv_field fields) +:+ lineterminator
  end.

(** The rows handed to the writer: the labels, then the cells as text. *)
Definition csv_rows (df : DataFrame) : list (list string) :=
  labels df :: map (map cell_text) (rows df).

Definition to_csv (df : DataFrame) : string :=
  concat (map writerow (csv_rows df)).

End Frame.

(** ** The run: a store of DataFrame objects and a trace of effects *)

Module Run.
Import Soup Frame.

(** A DataFrame variable holds a reference to an object of the store. *)
Definition loc := nat.

Inductive connection := Connection (database : string).

(** The effects a run leaves behind, in order.  An operation that raises
    leaves none. *)
Inductive event :=
| EvLog (message : string)
| EvGet (url : string)
| EvReadCsv (path : string)
| EvWriteCsv (path : string) (text : string)
| EvConnect (database : string)
| EvToSql (conn : connection) (table : string) (df : DataFrame)
| EvPrint (s : string)
| EvReadSql (conn : connection) (query : string)
| EvPrintFrame (df : DataFrame)
| EvClose (conn : connection).

(** The store holds the objects that the variable [df] of the script and of
    its functions is bound to, in the order of their creation.  The rate
    table that [transform] reads, its re-indexed copy and the dictionary
    made of it, and the answer that [run_query] prints, never leave the
    call that creates them and are not bound to [df]: they are values. *)
Record state := State { frames : list DataFrame; trace : list event }.

(** What the world outside answers: the parsed page behind a URL, the
    [Currency] and [Rate] columns of a rate file row by row, the result of a
    query, and for each write whether it fails. *)
Record world := World {
  http_get : string -> result node;
  read_rates : string -> result (list (string * float));
  log_append : string -> option exn;
  file_write : string -> string -> option exn;
  db_connect : string -> option exn;
  db_to_sql : connection -> string -> DataFrame -> option exn;
  db_read_sql : connection -> string -> result DataFrame;
  db_close : connection -> option exn
}.

(** A computation runs from a state to a state and returns or raises; what
    it did before raising stays done. *)
Definition M (A : Type) : Type := state -> state * result A.

#[global] Instance M_ret : MRet M := fun A v s => (s, Ok v).
#[global] Instance M_bind : MBind M := fun A B k m s =>
  match m s with
  | (s', Ok v) => k v s'
  | (s', Raise e) => (s', Raise e)
  end.

Definition lift {A} (r : result A) : M A := fun s => (s, r).

Definition emit (ev : event) : M unit :=
  fun s => (State (frames s) (trace s ++ [ev]), Ok tt).

(** An effect [ev] that the world lets fail. *)
Definition effect (ev : event) (failure : option exn) : M unit :=
  match failure with
  | None => emit ev
  | Some e => lift (Raise e)
  end.

(** An input [ev] that the world answers. *)
Definition input {A} (ev : event) (answer : result A) : M A :=
  match answer with
  | Ok v => emit ev;; mret v
  | Raise e => lift (Raise e)
  end.

(** A new object. *)
Definition alloc (df : DataFrame) : M loc :=
  fun s => (State (frames s ++ [df]) (trace s), Ok (length (frames s))).

Definition load (l : loc) : M DataFrame :=
  fun s => (s, match frames s !! l with
               | Some df => Ok df
               | None => Raise NameError
               end).

Definition store (l : loc) (df : DataFrame) : M unit :=
  fun s => (State (<[l := df]> (frames s)) (trace s), Ok tt).

(** [df[key]] and [df[key] = col] on the object behind [l]. *)
Definition get_column (l : loc) (key : string) : M (list cell) :=
  df ← load l; lift (getitem df key).

Definition set_column (l : loc) (key : string) (col : list cell) : M unit :=
  df ← load l; df' ← lift (setitem df key col); store l df'.

End Run.

(** ** banks_project.py *)

Module Banks.
Import PyStr PyFloat Soup Frame Run.

Definition url : string :=
  "https://web.archive.org/web/20230908091635 /https://en.wikipedia.org/wiki/List_of_largest_banks".
Definition table_attribs : list string := ["Name"; "MC_USD_Billion"].
Definition db_name : string := "Banks.db".
Definition table_name : string := "Largest_banks".
Definition csv_path : string := "exchange_rate.csv".
Definition output_cv_path : string := "Largest_banks_data.csv".

(** [log_progress(message)]: one line appended to the log file. *)
Definition log_progress (w : world) (message : string) : M unit :=
  effect (EvLog message) (log_append w message).

(** *** [extract] *)

(** [data.select('table tbody')[0].find_all('tr')[1:]] *)
Definition table_rows (data : node) : result (list node) :=
  match select "table" "tbody" data with
  | [] => Raise IndexError
  | tbody :: _ => Ok (tail (find_all "tr" tbody))
  end.

(** The loop over the rows, with the two lists it appends to. *)
Fixpoint scan_rows (rows : list node) (names : list string) (market_caps : list float)
  : result (list string * list float) :=
  match rows with
  | [] => Ok (names, market_caps)
  | row :: rows' =>
      match find_all "td" row with
      | [_; name; cap] =>
          let names := names ++ [get_text name] in
          match py_float (get_text cap) with
          | Some x => scan_rows rows' names (market_caps ++ [x])
          | None => Raise ValueError
          end
      | _ => scan_rows rows' names market_caps
      end
  end.

Definition extract (w : world) (url : string) (table_attribs : list string) : M loc :=
  data ← input (EvGet url) (http_get w url);
  _ ← alloc (map (fun a => (a, [])) table_attribs);
  rows ← lift (table_rows data);
  '(names, market_caps) ← lift (scan_rows rows [] []);
  alloc [("Name", map CStr names); ("MC_USD_Billion", map CFloat market_caps)].

(** *** [transform] *)

(** [exchange_rates_df.set_index('Currency')['Rate'].to_dict()]: the rows
    enter the dictionary one after the other. *)
Definition to_dict (rate_rows : list (string * float)) : gmap string float :=
  fold_left (fun d row => <[row.1 := row.2]> d) rate_rows ∅.

(** [d[key]] *)
Definition dict_get (d : gmap string float) (key : string) : result float :=
  match d !! key with
  | Some v => Ok v
  | None => Raise (KeyError key)
  end.

(** [np.round(x * exchange_rates_dict[key], 2)] *)
Definition convert (d : gmap string float) (key : string) (x : cell) : result cell :=
  rate ← dict_get d key;
  match x with
  | CFloat x => Ok (CFloat (np_round2 (x * rate)))
  | CStr _ => Raise TypeError
  end.

(** [df[label] = [np.round(x * exchange_rates_dict[key], 2)
                  for x in df['MC_USD_Billion']]] *)
Definition add_column (d : gmap string float) (df : loc) (label key : string) : M unit :=
  usd ← get_column df "MC_USD_Billion";
  col ← lift (comprehension (convert d key) usd);
  set_column df label col.

Definition transform (w : world) (df : loc) (csv_path : string) : M loc :=
  exchange_rates_df ← input (EvReadCsv csv_path) (read_rates w csv_path);
  let exchange_rates_dict := to_dict exchange_rates_df in
  add_column exchange_rates_dict df "MC_GBP_Billion" "GBP";;
  add_column exchange_rates_dict df "MC_EUR_Billion" "EUR";;
  add_column exchange_rates_dict df "MC_INR_Billion" "INR";;
  mret df.

(** *** The loaders and the query *)

Definition load_to_csv (w : world) (df : loc) (output_path : string) : M unit :=
  d ← load df;
  let text := to_csv d in
  effect (EvWriteCsv output_path text) (file_write w output_path text).

Definition load_to_db (w : world) (df : loc) (sql_connection : connection)
    (table_name : string) : M unit :=
  d ← load df;
  effect (EvToSql sql_connection table_name d) (db_to_sql w sql_connection table_name d).

Definition run_query (w : world) (query_statement : string)
    (sql_connection : connection) : M unit :=
  emit (EvPrint query_statement);;
  query_output ← input (EvReadSql sql_connection query_statement)
                       (db_read_sql w sql_connection query_statement);
  emit (EvPrintFrame query_output).

(** [sqlite3.connect(database)] and [sql_connection.close()] *)
Definition connect (w : world) (database : string) : M connection :=
  effect (EvConnect database) (db_connect w database);;
  mret (Connection database).

Definition close (w : world) (sql_connection : connection) : M unit :=
  effect (EvClose sql_connection) (db_close w sql_connection).

(** *** The script *)

Definition query_statement : string := "SELECT Name from Largest_banks LIMIT 5".

Definition main (w : world) : M unit :=
  log_progress w "Preliminaries complete. Initiating ETL process";;
  df ← extract w url table_attribs;
  log_progress w "Data extraction complete. Initiating Transformation process";;
  df ← transform w df csv_path;
  log_progress w "Data transformation complete. Initiating loading process";;
  load_to_csv w df output_cv_path;;
  log_progress w "Data saved to CSV file";;
  sql_connection ← connect w "Banks.db";
  log_progress w "SQL Connection initiated.";;
  load_to_db w df sql_connection table_name;;
  log_progress w "Data loaded to Database as table. Running the query";;
  run_query w query_statement sql_connection;;
  log_progress w "Process Complete.";;
  close w sql_connection.

Definition start : state := State [] [].

End Banks.

(** ** Vocabulary of the statements *)

Module Records.
Import PyStr PyFloat Soup Frame Run Banks.

(** A bank record, and the frame [extract] builds from a sequence of them. *)
Record BankRecord := { Name : string; MC_USD_Billion : float }.

Definition name_cell (r : BankRecord) : cell := CStr (Name r).
Definition usd_cell (r : BankRecord) : cell := CFloat (MC_USD_Billion r).

Definition frame_of_records (recs : list BankRecord) : DataFrame :=
  [("Name", map name_cell recs); ("MC_USD_Billion", map usd_cell recs)].

(** The market cap of a record at a rate as [numpy.round(_, 2)] gives it:
    the product, times 100, to the nearest integer, divided by 100, every
    operation in binary64. *)
Definition converted (rate : float) (r : BankRecord) : cell :=
  CFloat (rint (MC_USD_Billion r * rate * 100) / 100).

(** The frame after one, two and three derived columns. *)
Definition with_gbp (g : float) (recs : list BankRecord) : DataFrame :=
  frame_of_records recs ++ [("MC_GBP_Billion", map (converted g) recs)].

Definition with_eur (g e : float) (recs : list BankRecord) : DataFrame :=
  with_gbp g recs ++ [("MC_EUR_Billion", map (converted e) recs)].

Definition enriched (g e i : float) (recs : list BankRecord) : DataFrame :=
  with_eur g e recs ++ [("MC_INR_Billion", map (converted i) recs)].

(** The enriched record of a bank record, as a row of cells. *)
Definition enriched_row (g e i : float) (r : BankRecord) : list cell :=
  [name_cell r; usd_cell r; converted g r; converted e r; converted i r].

Definition enriched_labels : list string :=
  ["Name"; "MC_USD_Billion"; "MC_GBP_Billion"; "MC_EUR_Billion"; "MC_INR_Billion"].

(** The cells of a table row, a row of exactly three cells, and the text of
    the cell at a position (empty when there is no such cell). *)
Definition cells (row : node) : list node := find_all "td" row.

Definition three_cells (row : node) : bool := (length (cells row) =? 3)%nat.

Definition cell_text_at (i : nat) (row : node) : string :=
  match cells row !! i with
  | Some c => get_text c
  | None => EmptyString
  end.

(** [float] accepts the string. *)
Definition numeric (s : string) : bool :=
  match py_float s with Some _ => true | None => false end.

(** A row whose third cell, if it has exactly three, is no number. *)
Definition bad_row (row : node) : bool :=
  three_cells row && negb (numeric (cell_text_at 2 row)).

(** The record read off a row of three cells. *)
Definition record_of_row (row : node) : BankRecord :=
  {| Name := cell_text_at 1 row;
     MC_USD_Billion := default PrimFloat.zero (py_float (cell_text_at 2 row)) |}.

Definition records_of_rows (rows : list node) : list BankRecord :=
  map record_of_row (List.filter three_cells rows).

(** The header line of the CSV file and the line of a record. *)
Definition csv_header : string :=
  "Name,MC_USD_Billion,MC_GBP_Billion,MC_EUR_Billion,MC_INR_Billion" +:+ lineterminator.

(** A float as the file shows it: its [repr], or nothing when it is NaN. *)
Definition float_field (x : float) : string :=
  if PrimFloat.is_nan x then EmptyString else float_repr x.

(** The line of a record: the name, the market cap and the three derived
    values, each quoted if need be, with commas between them. *)
Definition csv_line (g e i : float) (r : BankRecord) : string :=
  join ","
    (map csv_field
       [Name r;
        float_field (MC_USD_Billion r);
        float_field (rint (MC_USD_Billion r * g * 100) / 100);
        float_field (rint (MC_USD_Billion r * e * 100) / 100);
        float_field (rint (MC_USD_Billion r * i * 100) / 100)])
  +:+ lineterminator.

(** The number of characters after the first point of a field, if it has one. *)
Fixpoint decimal_places (s : string) : option nat :=
  match s with
  | EmptyString => None
  | String c s' => if ascii_eqb c "." then Some (String.length s') else decimal_places s'
  end.

(** Events on the connection, and how often a trace opens and closes one. *)
Definition is_connect (ev : event) : bool :=
  match ev with EvConnect _ => true | _ => false end.

Definition is_close (ev : event) : bool :=
  match ev with EvClose _ => true | _ => false end.

Definition plain (ev : event) : bool := negb (is_connect ev || is_close ev).

Definition opened (t : list event) : nat := length (List.filter is_connect t).

Definition closed (t : list event) : nat := length (List.filter is_close t).

(** What a run does from opening the connection to closing it, for the frame
    [d] it loads and the answer [answer] to its query. *)
Definition session (d answer : DataFrame) : list event :=
  [EvConnect "Banks.db";
   EvLog "SQL Connection initiated.";
   EvToSql (Connection "Banks.db") table_name d;
   EvLog "Data loaded to Database as table. Running the query";
   EvPrint query_statement;
   EvReadSql (Connection "Banks.db") query_statement;
   EvPrintFrame answer;
   EvLog "Process Complete.";
   EvClose (Connection "Banks.db")].

(** The connection contract of a finished run: the connection was opened at
    most once; a run that returned went through the whole session, last of
    all closing the connection; a run that raised did not close it. *)
Definition connection_used (out : state * result unit) : Prop :=
  (opened (trace out.1) <= 1)%nat
  ∧ (out.2 = Ok tt ->
     ∃ pre d answer, trace out.1 = pre ++ session d answer ∧ forallb plain pre = true)
  ∧ (∀ e, out.2 = Raise e -> closed (trace out.1) = 0%nat).

(** [m] adds no event on the connection to a trace that has none. *)
Definition keeps_plain {A} (m : M A) : Prop :=
  ∀ s, forallb plain (trace s) = true -> forallb plain (trace (m s).1) = true.

(** The script from [sqlite3.connect] on, for the frame [df]. *)
Definition from_connect (w : world) (df : loc) : M unit :=
  sql_connection ← connect w "Banks.db";
  log_progress w "SQL Connection initiated.";;
  load_to_db w df sql_connection table_name;;
  log_progress w "Data loaded to Database as table. Running the query";;
  run_query w query_statement sql_connection;;
  log_progress w "Process Complete.";;
  close w sql_connection.

(** [untouched s s']: every object of [s] is in [s'] what it was in [s]. *)
Definition untouched (s s' : state) : Prop :=
  ∀ l d, frames s !! l = Some d -> frames s' !! l = Some d.

(** [preserved df s s']: every object of [s] other than [df] is in [s']
    what it was in [s], and [df] has kept its Name and MC_USD_Billion
    columns. *)
Definition preserved (df : loc) (s s' : state) : Prop :=
  (∀ l d, l ≠ df -> frames s !! l = Some d -> frames s' !! l = Some d)
  ∧ (∀ d, frames s !! df = Some d ->
       ∃ d', frames s' !! df = Some d'
             ∧ getitem d' "Name" = getitem d "Name"
             ∧ getitem d' "MC_USD_Billion" = getitem d "MC_USD_Billion").

(** [derived d key usd col]: row by row, [col] holds the market cap of
    [usd] at the rate of [key] in the dictionary [d], rounded as
    [numpy.round(_, 2)] does. *)
Definition derived (d : gmap string float) (key : string) (usd col : list cell) : Prop :=
  Forall2 (fun x y => ∃ v rate, x = CFloat v ∧ d !! key = Some rate
                                ∧ y = CFloat (rint (v * rate * 100) / 100)) usd col.

(** The rate of the last row of a rate file that has the code [code]. *)
Definition last_rate (code : string) (rate_rows : list (string * float)) : option float :=
  snd <$> last (List.filter (fun row => String.eqb row.1 code) rate_rows).

End Records.

(** ** Sample inputs *)

Module Examples.
Import PyStr PyFloat Soup Frame Run Banks Records.
#[local] Set Warnings "-inexact-float".

Definition bank_a : BankRecord := {| Name := "BankA"; MC_USD_Billion := 100.5 |}.
Definition bank_b : BankRecord := {| Name := "BankB"; MC_USD_Billion := 50.25 |}.
Definition example_records : list BankRecord := [bank_a; bank_b].

Definition example_rates : list (string * float) :=
  [("GBP", 0.8%float); ("EUR", 0.9%float); ("INR", 80%float)].

Definition only_gbp : list (string * float) := [("GBP", 0.8%float)].

Definition repeated_gbp : list (string * float) :=
  [("GBP", 0.5%float); ("GBP", 0.8%float); ("EUR", 0.9%float)].

(** A rate file with two rows for GBP and two for INR. *)
Definition repeated_rates : list (string * float) :=
  [("GBP", 0.5%float); ("INR", 80%float); ("GBP", 0.8%float); ("EUR", 0.9%float);
   ("INR", 83%float)].

(** A bank beyond 1.8e306, and one whose market cap reads [nan]. *)
Definition big_bank : BankRecord := {| Name := "BankC"; MC_USD_Billion := 1e307 |}.
Definition nan_bank : BankRecord := {| Name := "BankN"; MC_USD_Billion := PrimFloat.nan |}.

(** A world in which every write succeeds and the query finds nothing. *)
Definition quiet (page : result node) (rates : result (list (string * float))) : world :=
  {| http_get := fun _ => page;
     read_rates := fun _ => rates;
     log_append := fun _ => None;
     file_write := fun _ _ => None;
     db_connect := fun _ => None;
     db_to_sql := fun _ _ _ => None;
     db_read_sql := fun _ _ => Ok [];
     db_close := fun _ => None |}.

(** The same world, except that writing the table fails. *)
Definition failing_to_sql (page : result node) (rates : result (list (string * float)))
  : world :=
  {| http_get := fun _ => page;
     read_rates := fun _ => rates;
     log_append := fun _ => None;
     file_write := fun _ _ => None;
     db_connect := fun _ => None;
     db_to_sql := fun _ _ _ => Some DatabaseError;
     db_read_sql := fun _ _ => Ok [];
     db_close := fun _ => None |}.

(** A state whose only object is the frame of [recs]. *)
Definition holding (recs : list BankRecord) : state :=
  State [frame_of_records recs] [].

(** The output the sample records and rates are expected to give, and the
    output they give. *)
Definition claimed_output : DataFrame :=
  [("Name", [CStr "BankA"; CStr "BankB"]);
   ("MC_USD_Billion", [CFloat 100.5; CFloat 50.25]);
   ("MC_GBP_Billion", [CFloat 80.4; CFloat 40.2]);
   ("MC_EUR_Billion", [CFloat 90.45; CFloat 45.23]);
   ("MC_INR_Billion", [CFloat 8040; CFloat 4020])].

Definition example_output : DataFrame :=
  [("Name", [CStr "BankA"; CStr "BankB"]);
   ("MC_USD_Billion", [CFloat 100.5; CFloat 50.25]);
   ("MC_GBP_Billion", [CFloat 80.4; CFloat 40.2]);
   ("MC_EUR_Billion", [CFloat 90.45; CFloat 45.22]);
   ("MC_INR_Billion", [CFloat 8040; CFloat 4020])].

Definition example_csv_lines : list string :=
  ["Name,MC_USD_Billion,MC_GBP_Billion,MC_EUR_Billion,MC_INR_Billion";
   "BankA,100.5,80.4,90.45,8040.0";
   "BankB,50.25,40.2,45.22,4020.0"].

(** The market cap in EUR of the second row of a frame. *)
Definition second_eur (df : DataFrame) : option spec_float :=
  match getitem df "MC_EUR_Billion" with
  | Ok [_; CFloat x] => Some (Prim2SF x)
  | _ => None
  end.

Definition td (s : string) : node := Tag "td" [Text s].
Definition th (s : string) : node := Tag "th" [Text s].

Definition header_row : node :=
  Tag "tr" [th "Rank"; th "Bank name"; th "Market cap (US$ billion)"].

Definition newline : string := String (chr 10) EmptyString.

(** A table body: a header row, a row of three cells, a row of two cells and
    another row of three cells; and a page with it. *)
Definition example_tbody : node :=
  Tag "tbody" [
    header_row;
    Tag "tr" [td "1"; Tag "td" [Text " "; Tag "a" [Text "BankA"]; Text newline];
              td ("100.5" +:+ newline)];
    Tag "tr" [td "2"; td "BankX"];
    Tag "tr" [td "2"; td "BankB"; td "50.25"]].

Definition example_page : node :=
  Tag "[document]" [Tag "html" [Tag "body" [Tag "table" [example_tbody]]]].

(** The same rows in a table that has no [tbody] element. *)
Definition page_without_tbody : node :=
  Tag "[document]" [Tag "html" [Tag "body" [
    Tag "table" [
      header_row;
      Tag "tr" [td "1"; td "BankA"; td "100.5"]]]]].



End Examples.

(** ** Vocabulary of the whole script *)

Module Script.
Import PyStr PyFloat Soup Frame Run Banks Records.

(** The seven messages of the script, in the order it logs them. *)
Definition messages : list string :=
  ["Preliminaries complete. Initiating ETL process";
   "Data extraction complete. Initiating Transformation process";
   "Data transformation complete. Initiating loading process";
   "Data saved to CSV file";
   "SQL Connection initiated.";
   "Data loaded to Database as table. Running the query";
   "Process Complete."].

(** The messages a trace has logged. *)
Definition logs (t : list event) : list string :=
  omap (fun ev => match ev with EvLog m => Some m | _ => None end) t.

(** The trace of a run that goes through the whole script: [text] is what it
    writes to the CSV file, [d] the frame it writes to the table, [answer]
    what the query finds. *)
Definition script_trace (text : string) (d answer : DataFrame) : list event :=
  [EvLog "Preliminaries complete. Initiating ETL process";
   EvGet url;
   EvLog "Data extraction complete. Initiating Transformation process";
   EvReadCsv csv_path;
   EvLog "Data transformation complete. Initiating loading process";
   EvWriteCsv output_cv_path text;
   EvLog "Data saved to CSV file"]
  ++ session d answer.

(** An event without the data it carries. *)
Definition shape (ev : event) : event :=
  match ev with
  | EvWriteCsv path _ => EvWriteCsv path EmptyString
  | EvToSql conn table _ => EvToSql conn table []
  | EvPrintFrame _ => EvPrintFrame []
  | _ => ev
  end.

Definition script_shape : list event :=
  map shape (script_trace EmptyString [] []).

(** [appends m s evs]: run from [s], [m] adds the events of shape [evs] when
    it returns and the first of them when it raises. *)
Definition appends {A} (m : M A) (s : state) (evs : list event) : Prop :=
  match m s with
  | (s', Ok _) => map shape (trace s') = map shape (trace s) ++ evs
  | (s', Raise _) =>
      ∃ evs', evs' `prefix_of` evs ∧ map shape (trace s') = map shape (trace s) ++ evs'
  end.

(** The frame [extract] first creates and drops. *)
Definition empty_frame (attribs : list string) : DataFrame :=
  map (fun a => (a, [])) attribs.

(** The world lets every write of the script through. *)
Definition writes_succeed (w : world) (text : string) (d : DataFrame) : Prop :=
  (∀ m, log_append w m = None)
  ∧ file_write w output_cv_path text = None
  ∧ db_connect w "Banks.db" = None
  ∧ db_to_sql w (Connection "Banks.db") table_name d = None
  ∧ db_close w (Connection "Banks.db") = None.

(** The script from [load_to_csv] on, for the frame [df]. *)
Definition from_load (w : world) (df : loc) : M unit :=
  load_to_csv w df output_cv_path;;
  log_progress w "Data saved to CSV file";;
  from_connect w df.

(** A string starts, or ends, with a character of white space. *)
Definition leading_space (s : string) : bool :=
  match s with
  | String c _ => isspace c
  | EmptyString => false
  end.

Fixpoint trailing_space (s : string) : bool :=
  match s with
  | EmptyString => false
  | String c EmptyString => isspace c
  | String _ s' => trailing_space s'
  end.

(** All three rates are in the dictionary. *)
Definition has_rates (d : gmap string float) : bool :=
  bool_decide (is_Some (d !! "GBP"))
  && bool_decide (is_Some (d !! "EUR"))
  && bool_decide (is_Some (d !! "INR")).

End Script.

(** ** Properties *)

Module Props.
Import PyStr PyFloat Soup Frame Run Banks Records Examples.
#[local] Set Warnings "-inexact-float".

(** *** Running a computation *)

Lemma bind_ok {A B} (m : M A) (k : A -> M B) s s' v :
  m s = (s', Ok v) -> (m ≫= k) s = k v s'.
Proof. intros H. unfold mbind, M_bind. by rewrite H. Qed.

Lemma bind_raise {A B} (m : M A) (k : A -> M B) s s' e :
  m s = (s', Raise e) -> (m ≫= k) s = (s', Raise e).
Proof. intros H. unfold mbind, M_bind. by rewrite H. Qed.

(** *** Rounding to the nearest integer *)

Lemma digits_bounds m :
  2 ^ (Zpos (digits2_pos m) - 1) <= Zpos m < 2 ^ Zpos (digits2_pos m).
Proof.
  induction m as [p IH|p IH|]; simpl digits2_pos; rewrite ?Pos2Z.inj_succ.
  - replace (Z.succ (Zpos (digits2_pos p)) - 1) with (Z.succ (Zpos (digits2_pos p) - 1))
      by lia.
    rewrite !Z.pow_succ_r by lia. lia.
  - replace (Z.succ (Zpos (digits2_pos p)) - 1) with (Z.succ (Zpos (digits2_pos p) - 1))
      by lia.
    rewrite !Z.pow_succ_r by lia. lia.
  - done.
Qed.

Lemma digits_unique m d :
  2 ^ (d - 1) <= Zpos m < 2 ^ d -> Zpos (digits2_pos m) = d.
Proof.
  intros [Hlo Hhi]. pose proof (digits_bounds m) as [Hlo' Hhi'].
  destruct (Z.lt_trichotomy (Zpos (digits2_pos m)) d) as [Hlt|[Heq|Hgt]]; [|done|].
  - assert (2 ^ Zpos (digits2_pos m) <= 2 ^ (d - 1)) by (apply Z.pow_le_mono_r; lia). lia.
  - assert (0 <= d) as Hd.
    { destruct (Z.le_gt_cases 0 d) as [|Hneg]; [done|].
      rewrite (Z.pow_neg_r 2 d) in Hhi by lia. lia. }
    assert (2 ^ d <= 2 ^ (Zpos (digits2_pos m) - 1)) by (apply Z.pow_le_mono_r; lia). lia.
Qed.

Lemma iter_xO m p : Zpos (Pos.iter xO m p) = Zpos m * 2 ^ Zpos p.
Proof.
  change (Pos.iter xO m p) with (shift_pos p m).
  rewrite shift_pos_correct. change (Z.pow_pos 2 p) with (2 ^ Zpos p). lia.
Qed.

Lemma shl_align_down m e e' :
  e' <= e -> ∃ m', shl_align m e e' = (m', e') ∧ Zpos m' = Zpos m * 2 ^ (e - e').
Proof.
  intros Hle. unfold shl_align.
  destruct (e' - e) as [|d|d] eqn:Hd; [|lia|].
  - exists m. assert (e' = e) as -> by lia. split; [done|]. rewrite Z.sub_diag. lia.
  - exists (Pos.iter xO m d). split; [done|]. rewrite iter_xO. f_equal. f_equal. lia.
Qed.

Lemma shl_align_up m e e' : e <= e' -> shl_align m e e' = (m, e).
Proof. intros Hle. unfold shl_align. destruct (e' - e) eqn:Hd; [done|done|lia]. Qed.

(** *** Shifting to the right *)

Lemma shr_1_nonneg q r s :
  0 <= q -> shr_1 (Build_shr_record q r s) = Build_shr_record (q / 2) (Z.odd q) (r || s).
Proof.
  intros Hq. destruct q as [|[p|p|]|p]; try done; simpl shr_1.
  - f_equal. rewrite Pos2Z.inj_xI. apply (Z.div_unique _ 2 _ 1); lia.
  - f_equal. rewrite Pos2Z.inj_xO. apply (Z.div_unique _ 2 _ 0); lia.
Qed.

Lemma shifted_step M k mrs : 0 <= k -> shifted M k mrs -> shifted M (k + 1) (shr_1 mrs).
Proof.
  intros Hk. destruct mrs as [q r s]. intros (Hq & rem & HM & Hrem & Hr & Hs).
  cbn [shr_m shr_r shr_s] in *. rewrite shr_1_nonneg by done.
  unfold shifted. cbn [shr_m shr_r shr_s].
  rewrite Z.pow_add_r by lia. change (2 ^ 1) with 2. set (T := 2 ^ k) in *.
  assert (0 < T) as HT by (apply Z.pow_pos_nonneg; lia).
  pose proof (Z.div_mod q 2 ltac:(lia)) as Hdiv.
  pose proof (Z.mod_pos_bound q 2 ltac:(lia)) as Hmod.
  pose proof (Zmod_odd q) as Hodd.
  split; [apply Z.div_pos; lia|].
  exists (rem + q mod 2 * T).
  destruct (Z.odd q); rewrite Hodd in *; clear Hodd.
  - split; [nia|]. split; [nia|]. split; [split; [intros _; nia|done]|].
    destruct r, s; simpl in *; split; intros; try done; try nia; intuition nia.
  - split; [nia|]. split; [nia|]. split; [split; [done|intros; nia]|].
    destruct r, s; simpl in *; split; intros; try done; try nia; intuition nia.
Qed.

Lemma shifted_iter M p :
  ∀ k mrs, 0 <= k -> shifted M k mrs ->
           shifted M (k + Zpos p) (SpecFloat.iter_pos shr_1 p mrs).
Proof.
  induction p as [p IH|p IH|]; intros k mrs Hk H; simpl iter_pos.
  - replace (k + Zpos p~1) with (k + 1 + Zpos p + Zpos p) by lia.
    apply IH; [lia|]. apply IH; [lia|]. by apply shifted_step.
  - replace (k + Zpos p~0) with (k + Zpos p + Zpos p) by lia.
    apply IH; [lia|]. by apply IH.
  - by apply shifted_step.
Qed.

Lemma shr_shifted M e n :
  0 <= M -> 0 <= n ->
  ∃ mrs, shr (Build_shr_record M false false) e n = (mrs, e + n) ∧ shifted M n mrs.
Proof.
  intros HM Hn.
  assert (shifted M 0 (Build_shr_record M false false)) as H0.
  { split; [done|]. exists 0. simpl.
    split; [lia|]. split; [lia|]. split; split; (done || lia). }
  destruct n as [|p|p]; [| |lia].
  - eexists. split; [|exact H0]. simpl. f_equal. lia.
  - eexists. split; [reflexivity|]. by apply (shifted_iter M p 0).
Qed.

(** What is left after a shift rounds to an integer nearest to [M / 2 ^ k]. *)
Lemma round_shifted M k mrs :
  0 <= k -> shifted M k mrs ->
  nearest_even M (2 ^ k) (round_nearest_even (shr_m mrs) (loc_of_shr_record mrs))
  ∧ shr_m mrs <= round_nearest_even (shr_m mrs) (loc_of_shr_record mrs) <= shr_m mrs + 1.
Proof.
  intros Hk. destruct mrs as [q r s]. intros (Hq & rem & HM & Hrem & Hr & Hs).
  cbn [shr_m shr_r shr_s] in *. set (T := 2 ^ k) in *.
  assert (0 < T) as HT by (apply Z.pow_pos_nonneg; lia).
  unfold nearest_even.
  destruct r, s; simpl.
  - assert (T <= 2 * rem) by tauto. assert (2 * rem ≠ T) by tauto.
    split; [split; [nia|intros; nia]|lia].
  - assert (T <= 2 * rem) by tauto.
    assert (2 * rem = T)
      by (destruct (Z.eq_dec (2 * rem) T); [done|]; assert (false = true) by tauto; done).
    destruct (Z.even q) eqn:He.
    + split; [split; [nia|done]|lia].
    + split; [split; [nia|]|lia]. intros _.
      rewrite Z.even_add, He. done.
  - assert (¬ T <= 2 * rem) by (intros ?; assert (false = true) by tauto; done).
    split; [split; [nia|intros; nia]|lia].
  - assert (2 * rem = 0)
      by (destruct (Z.eq_dec (2 * rem) 0); [done|]; assert (false = true) by tauto; done).
    split; [split; [nia|intros; nia]|lia].
Qed.

Lemma fexp_eq e : fexp prec emax e = Z.max (e - 53) (-1074).
Proof. reflexivity. Qed.

(** A mantissa that is already in place is not rounded. *)
Lemma binary_round_aux_exact s m e :
  fexp prec emax (Zpos (digits2_pos m) + e) = e -> e <= 971 ->
  binary_round_aux prec emax s (Zpos m) e loc_Exact = S754_finite s m e.
Proof.
  intros Hc He. unfold binary_round_aux, shr_fexp. cbn [Zdigits2 shr_record_of_loc].
  rewrite Hc, Z.sub_diag. cbn [shr loc_of_shr_record shr_m round_nearest_even Zdigits2].
  rewrite Hc, Z.sub_diag. cbn [shr shr_m shr_record_of_loc].
  assert ((e <=? emax - prec) = true) as -> by (apply Z.leb_le; exact He).
  done.
Qed.

(** Adding 2^52 to a float below it rounds the float to an integer. *)
Lemma SFadd_two52 m e :
  e < 0 -> Zpos m < 2 ^ 53 ->
  ∃ k, nearest_even (Zpos m) (2 ^ (- e)) k ∧ 0 <= k <= 2 ^ 52
       ∧ SFadd prec emax (S754_finite false m e) (S754_finite false m52 0)
         = if k =? 2 ^ 52 then S754_finite false m52 1
           else S754_finite false (Z.to_pos (2 ^ 52 + k)) 0.
Proof.
  intros He Hm. unfold SFadd. rewrite Z.min_l by lia.
  rewrite shl_align_up by lia.
  destruct (shl_align_down m52 0 e ltac:(lia)) as (m' & -> & Hm').
  cbn [fst cond_Zopp].
  change (Z.pos m + Z.pos m') with (Zpos (m + m')).
  cbn [binary_normalize]. unfold binary_round.
  set (T := 2 ^ (- e)) in *.
  assert (2 <= T) as HT.
  { unfold T. change 2 with (2 ^ 1) at 1. apply Z.pow_le_mono_r; lia. }
  assert (Zpos (m + m') = Zpos m + 2 ^ 52 * T) as HM.
  { rewrite Pos2Z.inj_add, Hm'. unfold T. replace (0 - e) with (- e) by lia. done. }
  assert (Zpos (digits2_pos (m + m')) = 53 - e) as Hd.
  { apply digits_unique. rewrite HM.
    replace (53 - e - 1) with (52 + - e) by lia. replace (53 - e) with (53 + - e) by lia.
    rewrite !Z.pow_add_r by lia. fold T. nia. }
  rewrite Hd. replace (53 - e + e) with 53 by lia.
  change (fexp prec emax 53) with 0.
  rewrite shl_align_up by lia.
  unfold binary_round_aux, shr_fexp. cbn [Zdigits2 shr_record_of_loc].
  rewrite Hd. replace (53 - e + e) with 53 by lia.
  change (fexp prec emax 53) with 0.
  assert (0 <= Zpos (m + m')) as HM0 by lia.
  assert (0 <= 0 - e) as He0 by lia.
  destruct (shr_shifted (Zpos (m + m')) e (0 - e) HM0 He0) as (mrs & -> & Hsh).
  replace (0 - e) with (- e) in Hsh by lia.
  assert (0 <= - e) as He1 by lia.
  destruct (round_shifted _ _ _ He1 Hsh) as [Hne Hq]. fold T in Hne.
  set (Q := round_nearest_even (shr_m mrs) (loc_of_shr_record mrs)) in *.
  replace (e + (0 - e)) with 0 by lia.
  assert (2 ^ 52 <= Q <= 2 ^ 53) as HQ.
  { destruct Hne as [Hne _]. rewrite HM in Hne. split; nia. }
  exists (Q - 2 ^ 52). split; [|split; [lia|]].
  - destruct Hne as [Hne Htie]. rewrite HM in Hne, Htie.
    replace (Z.pos m + 2 ^ 52 * T - Q * T) with (Z.pos m - (Q - 2 ^ 52) * T)
      in Hne, Htie by lia.
    split; [exact Hne|]. intros H. specialize (Htie H).
    replace Q with ((Q - 2 ^ 52) + 2 ^ 52) in Htie by lia.
    rewrite Z.even_add in Htie. change (Z.even (2 ^ 52)) with true in Htie.
    by destruct (Z.even (Q - 2 ^ 52)).
  - destruct (Z.eqb_spec (Q - 2 ^ 52) (2 ^ 52)) as [Heq|Hne'].
    + assert (Q = 2 ^ 53) as -> by lia. vm_compute. reflexivity.
    + destruct Q as [|q|q]; [lia| |lia].
      assert (Zpos (digits2_pos q) = 53) as Hdq by (apply digits_unique; lia).
      cbn [Zdigits2]. rewrite Hdq. change (fexp prec emax (53 + 0) - 0) with 0.
      cbn [shr shr_m]. change (0 <=? emax - prec) with true. cbn iota.
      f_equal. lia.
Qed.

Lemma SFsub_two52 k :
  0 <= k <= 2 ^ 52 ->
  SFsub prec emax
    (if k =? 2 ^ 52 then S754_finite false m52 1
     else S754_finite false (Z.to_pos (2 ^ 52 + k)) 0)
    (S754_finite false m52 0)
  = binary_normalize prec emax k 0 false.
Proof.
  intros Hk. destruct (Z.eqb_spec k (2 ^ 52)) as [->|Hne]; [vm_compute; reflexivity|].
  unfold SFsub. rewrite Z.min_id, !shl_align_up by lia.
  cbn [fst cond_Zopp]. f_equal. rewrite Z2Pos.id by lia. unfold m52. lia.
Qed.

(** A positive integer below 2^53 is a float. *)
Lemma normalize_integer k :
  0 < k < 2 ^ 53 ->
  ∃ m' e', binary_normalize prec emax k 0 false = S754_finite false m' e'
           ∧ Zpos m' * 2 ^ (e' + 1074) = k * 2 ^ 1074.
Proof.
  intros Hk. destruct k as [|p|p]; [lia| |lia].
  cbn [binary_normalize]. unfold binary_round.
  pose proof (digits_bounds p) as Hp. set (d := Zpos (digits2_pos p)) in *.
  assert (1 <= d <= 53) as Hd.
  { split; [unfold d; lia|].
    destruct (Z.le_gt_cases d 53) as [|Hgt]; [done|].
    assert (2 ^ 53 <= 2 ^ (d - 1)) by (apply Z.pow_le_mono_r; lia). lia. }
  rewrite fexp_eq. replace (Z.max (d + 0 - 53) (-1074)) with (d - 53) by lia.
  assert (d - 53 <= 0) as Hle by lia.
  destruct (shl_align_down p 0 (d - 53) Hle) as (m' & -> & Hm').
  replace (0 - (d - 53)) with (53 - d) in Hm' by lia.
  assert (Zpos (digits2_pos m') = 53) as Hd'.
  { apply digits_unique. rewrite Hm'.
    assert (2 ^ (53 - 1) = 2 ^ (d - 1) * 2 ^ (53 - d)) as ->.
    { rewrite <- Z.pow_add_r by lia. f_equal. lia. }
    assert (2 ^ 53 = 2 ^ d * 2 ^ (53 - d)) as ->.
    { rewrite <- Z.pow_add_r by lia. f_equal. lia. }
    assert (0 < 2 ^ (53 - d)) by (apply Z.pow_pos_nonneg; lia). nia. }
  exists m', (d - 53). split.
  - apply binary_round_aux_exact; [|lia]. rewrite Hd', fexp_eq. lia.
  - rewrite Hm', <- Z.mul_assoc. f_equal.
    rewrite <- Z.pow_add_r; [f_equal; lia|lia|lia].
Qed.

Lemma Prim2SF_two52 : Prim2SF two52 = S754_finite false m52 0.
Proof. vm_compute. reflexivity. Qed.

Lemma get_sign_finite x s m e : Prim2SF x = S754_finite s m e -> get_sign x = s.
Proof.
  unfold Prim2SF. destruct (is_nan x); [done|]. destruct (is_zero x); [done|].
  destruct (is_infinity x); [done|]. destruct (Z.frexp x) as [r ex].
  destruct (shr_fexp _ _ _ _ _) as [mrs e']. destruct (shr_m mrs); [done| |done].
  by intros [= -> _ _].
Qed.

(** The bounds of a finite float. *)
Lemma finite_bounds x s m e :
  Prim2SF x = S754_finite s m e ->
  -1074 <= e <= 971 ∧ Zpos m < 2 ^ 53 ∧ (e = 0 -> 2 ^ 52 <= Zpos m).
Proof.
  intros Hx. pose proof (Prim2SF_valid x) as Hv. rewrite Hx in Hv.
  unfold SpecFloat.valid_binary, bounded, canonical_mantissa in Hv.
  apply andb_prop in Hv as [Hc He]. apply Z.eqb_eq in Hc. apply Z.leb_le in He.
  rewrite fexp_eq in Hc. change (emax - prec) with 971 in He.
  pose proof (digits_bounds m) as Hm. set (d := Zpos (digits2_pos m)) in *.
  split; [lia|]. split.
  - assert (2 ^ d <= 2 ^ 53) by (apply Z.pow_le_mono_r; lia). lia.
  - intros ->. assert (d = 53) as Hd by lia. rewrite Hd in Hm. lia.
Qed.

Lemma nearest_even_scale s n T U k :
  0 < U -> nearest_even n T k ->
  nearest_even (cond_Zopp s (n * U)) (T * U) (cond_Zopp s k).
Proof.
  intros HU [Hle Htie]. unfold nearest_even.
  assert (Z.abs (cond_Zopp s (n * U) - cond_Zopp s k * (T * U)) = Z.abs (n - k * T) * U)
    as ->.
  { destruct s; simpl; nia. }
  split; [nia|]. intros H.
  assert (Z.even k = true) as Hk by (apply Htie; nia).
  destruct s; simpl; [by rewrite Z.even_opp|done].
Qed.


(** Zeros, infinities and NaN are left as they are. *)
Lemma rint_special x :
  Prim2SF x = S754_nan ∨ (∃ s, Prim2SF x = S754_infinity s)
  ∨ (∃ s, Prim2SF x = S754_zero s) ->
  rint x = x.
Proof.
  intros H. rewrite <- (SF2Prim_Prim2SF x).
  destruct H as [->|[[s ->]|[s ->]]]; [|destruct s..]; vm_compute; reflexivity.
Qed.

(** [rint] takes every finite float to an integer nearest to it, the even
    one of two, and leaves infinities and NaN as they are. *)
Lemma rint_nearest_even x :
  match scaled x with
  | Some n => ∃ k, scaled (rint x) = Some (k * 2 ^ 1074) ∧ nearest_even n (2 ^ 1074) k
  | None => rint x = x
  end.
Proof.
  assert (0 < 2 ^ 1074) as HD by (by apply Z.pow_pos_nonneg).
  unfold scaled at 1. destruct (Prim2SF x) as [s|s| |s m e] eqn:Hx.
  - rewrite rint_special by eauto. exists 0. unfold scaled. rewrite Hx.
    split; [reflexivity|]. unfold nearest_even.
    generalize dependent (2 ^ 1074). intros D HD.
    split; [lia|]. intros; lia.
  - apply rint_special; eauto.
  - apply rint_special; eauto.
  - destruct (finite_bounds _ _ _ _ Hx) as (He & Hm & Hm0).
    pose proof (get_sign_finite _ _ _ _ Hx) as Hs.
    assert ((abs x <? two52)%float = (e <? 0)) as Hlt.
    { rewrite ltb_spec, abs_spec, Hx, Prim2SF_two52.
      unfold SFltb, SFcompare. cbn [SFabs].
      destruct (Z.compare_spec e 0) as [->|Hneg|Hpos].
      - specialize (Hm0 eq_refl). unfold m52.
        destruct (PosDef.Pos.compare_cont Eq m 4503599627370496) eqn:Hc; [done| |done].
        exfalso. assert (Zpos m < 4503599627370496) as Hlt by exact Hc. lia.
      - symmetry. by apply Z.ltb_lt.
      - symmetry. apply Z.ltb_ge. lia. }
    unfold rint. rewrite Hlt, Hs.
    destruct (Z.ltb_spec e 0) as [Hneg|Hpos].
    + destruct (SFadd_two52 m e Hneg Hm) as (k & Hk & Hkb & Hadd).
      assert (Prim2SF (abs x + two52 - two52) = binary_normalize prec emax k 0 false) as Hr.
      { rewrite sub_spec, add_spec, abs_spec, Hx, Prim2SF_two52. cbn [SFabs].
        unfold SF64sub, SF64add. rewrite Hadd. by apply SFsub_two52. }
      exists (cond_Zopp s k). split.
      * destruct (Z.eq_dec k 0) as [->|Hk0].
        -- cbn [binary_normalize] in Hr. unfold scaled.
           destruct s; [rewrite opp_spec|]; rewrite Hr; reflexivity.
        -- assert (0 < k < 2 ^ 53) as Hk1 by lia.
           destruct (normalize_integer k Hk1) as (m' & e' & Hn & Hv). rewrite Hn in Hr.
           unfold scaled.
           destruct s; [rewrite opp_spec|]; rewrite Hr; cbn [SFopp negb cond_Zopp];
             rewrite Hv; f_equal; generalize dependent (2 ^ 1074); intros; lia.
      * assert (2 ^ 1074 = 2 ^ (- e) * 2 ^ (e + 1074)) as ->.
        { rewrite <- Z.pow_add_r by lia. f_equal. lia. }
        apply nearest_even_scale; [apply Z.pow_pos_nonneg; lia|done].
    + exists (cond_Zopp s (Zpos m * 2 ^ e)). unfold scaled. rewrite Hx.
      rewrite Z.pow_add_r by lia. generalize dependent (2 ^ 1074). intros D HD.
      assert (0 < 2 ^ e) by (apply Z.pow_pos_nonneg; lia).
      split; [f_equal; destruct s; simpl; lia|].
      unfold nearest_even.
      assert (cond_Zopp s (Z.pos m * (2 ^ e * D)) - cond_Zopp s (Z.pos m * 2 ^ e) * D = 0)
        as ->
          by (destruct s; simpl; lia).
      simpl. split; [lia|]. intros; lia.
Qed.

(** *** The rate dictionary *)

Lemma to_dict_snoc (rate_rows : list (string * float)) row :
  to_dict (rate_rows ++ [row]) = <[row.1 := row.2]> (to_dict rate_rows).
Proof. unfold to_dict. by rewrite fold_left_app. Qed.

Lemma last_rate_snoc code (rate_rows : list (string * float)) row :
  last_rate code (rate_rows ++ [row])
  = if String.eqb row.1 code then Some row.2 else last_rate code rate_rows.
Proof.
  unfold last_rate. rewrite List.filter_app. simpl.
  destruct (String.eqb row.1 code); [by rewrite last_snoc|by rewrite app_nil_r].
Qed.

(** The dictionary maps a code to the rate of its last row. *)
Lemma to_dict_last_rate (rate_rows : list (string * float)) code :
  to_dict rate_rows !! code = last_rate code rate_rows.
Proof.
  induction rate_rows as [|row rate_rows IH] using rev_ind; [done|].
  rewrite to_dict_snoc, last_rate_snoc.
  destruct (String.eqb_spec row.1 code) as [<-|Hne].
  - apply lookup_insert_eq.
  - by rewrite lookup_insert_ne.
Qed.

(** *** [transform] on the frame of a record sequence *)

Lemma comprehension_convert d key rate recs :
  d !! key = Some rate ->
  comprehension (convert d key) (map usd_cell recs) = Ok (map (converted rate) recs).
Proof.
  intros Hd. induction recs as [|r recs IH]; [done|].
  simpl. rewrite IH. unfold convert at 1, dict_get. by rewrite Hd.
Qed.

Lemma comprehension_missing d key r recs :
  d !! key = None ->
  comprehension (convert d key) (map usd_cell (r :: recs)) = Raise (KeyError key).
Proof. intros Hd. simpl. unfold convert, dict_get. by rewrite Hd. Qed.

(** One column assignment that succeeds. *)
Lemma add_column_frame d s df frame label key rate recs :
  frames s !! df = Some frame ->
  getitem frame "MC_USD_Billion" = Ok (map usd_cell recs) ->
  setitem frame label (map (converted rate) recs)
  = Ok (put frame label (map (converted rate) recs)) ->
  d !! key = Some rate ->
  add_column d df label key s
  = (State (<[df := put frame label (map (converted rate) recs)]> (frames s)) (trace s),
     Ok tt).
Proof.
  intros Hs Hget Hset Hd. unfold add_column, get_column, set_column.
  unfold mbind, M_bind, load, lift, store. rewrite Hs, Hget. simpl.
  rewrite (comprehension_convert _ _ _ _ Hd). simpl. by rewrite Hs, Hset.
Qed.

(** One column assignment whose key is missing: nothing is assigned. *)
Lemma add_column_missing d s df frame label key r recs :
  frames s !! df = Some frame ->
  getitem frame "MC_USD_Billion" = Ok (map usd_cell (r :: recs)) ->
  d !! key = None ->
  add_column d df label key s = (s, Raise (KeyError key)).
Proof.
  intros Hs Hget Hd. unfold add_column, get_column.
  unfold mbind, M_bind, load, lift. rewrite Hs, Hget.
  by rewrite (comprehension_missing _ _ _ _ Hd).
Qed.

Lemma setitem_new_column (label : string) (frame : DataFrame) (col : list cell) :
  frame ≠ [] -> length col = nrows frame ->
  setitem frame label col = Ok (put frame label col).
Proof.
  intros Hne Hlen. destruct frame as [|c frame]; [done|].
  unfold setitem. by rewrite Hlen, Nat.eqb_refl.
Qed.

Lemma rows_enriched g e i recs :
  rows (enriched g e i recs) = map (enriched_row g e i) recs.
Proof.
  unfold rows, enriched, with_eur, with_gbp, frame_of_records. simpl.
  rewrite length_map. induction recs as [|r recs IH]; [done|].
  simpl. by rewrite IH.
Qed.

Ltac new_column :=
  apply setitem_new_column; [done | simpl; by rewrite !length_map].

(** [transform] on the frame of a record sequence, when the three rates are
    in the dictionary. *)
Lemma transform_records w s df path recs rate_rows g e i :
  frames s !! df = Some (frame_of_records recs) ->
  read_rates w path = Ok rate_rows ->
  to_dict rate_rows !! "GBP" = Some g ->
  to_dict rate_rows !! "EUR" = Some e ->
  to_dict rate_rows !! "INR" = Some i ->
  transform w df path s
  = (State (<[df := enriched g e i recs]> (frames s)) (trace s ++ [EvReadCsv path]),
     Ok df).
Proof.
  intros Hs Hr Hg He Hi.
  unfold transform, input. rewrite Hr.
  unfold mbind at 1, M_bind at 1. unfold mbind at 1, M_bind at 1.
  unfold emit at 1, mret at 1, M_ret at 1.
  pose proof (lookup_lt_Some _ _ _ Hs) as Hlt.
  erewrite bind_ok; cycle 1.
  { eapply add_column_frame; [exact Hs | reflexivity | new_column | exact Hg]. }
  erewrite bind_ok; cycle 1.
  { eapply add_column_frame;
      [by apply list_lookup_insert_eq | reflexivity | new_column | exact He]. }
  erewrite bind_ok; cycle 1.
  { eapply add_column_frame;
      [apply list_lookup_insert_eq; simpl; by rewrite length_insert
      | reflexivity | new_column | exact Hi]. }
  simpl. by rewrite !list_insert_insert_eq.
Qed.

(** C1 (amended).  For every sequence of bank records held by the frame
    [df] and every rate file whose dictionary has the keys GBP, EUR and INR,
    [transform] returns [df] holding one row per input record, in the input
    order, with the Name and MC_USD_Billion of the record and the three
    derived fields MC_GBP_Billion, MC_EUR_Billion and MC_INR_Billion; no
    row is dropped or moved.  A derived field is what [numpy.round(_, 2)]
    computes: the binary64 product of market cap and rate, times 100 in
    binary64, taken by [rint] to an integer, divided by 100 in binary64;
    and [rint] takes a finite float to an integer nearest to it, the even
    one when two are as near, and leaves infinities and NaN as they are. *)
Theorem transform_enriches w s df path recs rate_rows g e i :
  frames s !! df = Some (frame_of_records recs) ->
  read_rates w path = Ok rate_rows ->
  to_dict rate_rows !! "GBP" = Some g ->
  to_dict rate_rows !! "EUR" = Some e ->
  to_dict rate_rows !! "INR" = Some i ->
  transform w df path s
  = (State (<[df := enriched g e i recs]> (frames s)) (trace s ++ [EvReadCsv path]),
     Ok df)
  ∧ labels (enriched g e i recs) = enriched_labels
  ∧ rows (enriched g e i recs)
    = map (fun r => [CStr (Name r);
                     CFloat (MC_USD_Billion r);
                     CFloat (rint (MC_USD_Billion r * g * 100) / 100);
                     CFloat (rint (MC_USD_Billion r * e * 100) / 100);
                     CFloat (rint (MC_USD_Billion r * i * 100) / 100)]) recs
  ∧ length (rows (enriched g e i recs)) = length recs
  ∧ ∀ x, match scaled x with
         | Some n =>
             ∃ k, scaled (rint x) = Some (k * 2 ^ 1074) ∧ nearest_even n (2 ^ 1074) k
         | None => rint x = x
         end.
Proof.
  intros Hs Hr Hg He Hi.
  split; [by eapply transform_records|].
  split; [done|]. split; [apply rows_enriched|].
  split; [by rewrite rows_enriched, length_map|].
  apply rint_nearest_even.
Qed.

Lemma transform_enriches_witness :
  frames (holding example_records) !! 0%nat = Some (frame_of_records example_records)
  ∧ read_rates (quiet (Ok example_page) (Ok example_rates)) csv_path = Ok example_rates
  ∧ to_dict example_rates !! "GBP" = Some 0.8%float
  ∧ to_dict example_rates !! "EUR" = Some 0.9%float
  ∧ to_dict example_rates !! "INR" = Some 80%float
  ∧ transform (quiet (Ok example_page) (Ok example_rates)) 0%nat csv_path
      (holding example_records)
    = (State [enriched 0.8 0.9 80 example_records] [EvReadCsv csv_path], Ok 0%nat)
  ∧ rows (enriched 0.8 0.9 80 example_records)
    = [[CStr "BankA"; CFloat 100.5; CFloat (rint (100.5 * 0.8 * 100) / 100);
        CFloat (rint (100.5 * 0.9 * 100) / 100); CFloat (rint (100.5 * 80 * 100) / 100)];
       [CStr "BankB"; CFloat 50.25; CFloat (rint (50.25 * 0.8 * 100) / 100);
        CFloat (rint (50.25 * 0.9 * 100) / 100); CFloat (rint (50.25 * 80 * 100) / 100)]].
Proof.
  assert (to_dict example_rates !! "GBP" = Some 0.8%float) as Hg
      by (vm_compute; reflexivity).
  assert (to_dict example_rates !! "EUR" = Some 0.9%float) as He
      by (vm_compute; reflexivity).
  assert (to_dict example_rates !! "INR" = Some 80%float) as Hi
      by (vm_compute; reflexivity).
  destruct (transform_enriches (quiet (Ok example_page) (Ok example_rates))
              (holding example_records) 0%nat csv_path example_records example_rates
              0.8 0.9 80 eq_refl eq_refl Hg He Hi) as (Hrun & _ & Hrows & _).
  split; [reflexivity|]. split; [reflexivity|].
  split; [exact Hg|]. split; [exact He|]. split; [exact Hi|].
  split; [exact Hrun | exact Hrows].
Defined.

(** C1, as stated, fails: a derived field is not always the product
    rounded to two decimal places.  For BankB the product 50.25 * 0.9 lies
    nearer to 45.23 than to 45.22, and the field is 45.22; for a market cap
    of 1e307 the product with 0.8 is a finite float, and the field is
    infinite. *)
Lemma transform_not_two_places :
  match scaled (50.25 * 0.9) with
  | Some n => Z.abs (100 * n - 4523 * 2 ^ 1074) < Z.abs (100 * n - 4522 * 2 ^ 1074)
  | None => False
  end
  ∧ is_Some (scaled (1e307 * 0.8))
  ∧ transform (quiet (Ok example_page) (Ok example_rates)) 0%nat csv_path
      (holding [bank_b; big_bank])
    = (State [[("Name", [CStr "BankB"; CStr "BankC"]);
               ("MC_USD_Billion", [CFloat 50.25; CFloat 1e307]);
               ("MC_GBP_Billion", [CFloat 40.2; CFloat PrimFloat.infinity]);
               ("MC_EUR_Billion", [CFloat 45.22; CFloat PrimFloat.infinity]);
               ("MC_INR_Billion", [CFloat 4020; CFloat PrimFloat.infinity])]]
             [EvReadCsv csv_path],
       Ok 0%nat).
Proof.
  split; [vm_compute; reflexivity|]. split; [vm_compute; by eexists|].
  vm_compute. reflexivity.
Qed.

(** C10.  When the rate file has several rows for one currency code, the
    dictionary that [transform] makes of it holds, for every code, the rate
    of the last row that has the code, and that is the rate [transform]
    applies: with [g], [e] and [i] the rates of the last rows for GBP, EUR
    and INR, it returns the input records converted at [g], [e] and [i],
    whatever rates earlier rows give. *)
Theorem transform_last_row_wins w s df path recs rate_rows g e i :
  frames s !! df = Some (frame_of_records recs) ->
  read_rates w path = Ok rate_rows ->
  last_rate "GBP" rate_rows = Some g ->
  last_rate "EUR" rate_rows = Some e ->
  last_rate "INR" rate_rows = Some i ->
  (∀ code, to_dict rate_rows !! code = last_rate code rate_rows)
  ∧ transform w df path s
    = (State (<[df := enriched g e i recs]> (frames s)) (trace s ++ [EvReadCsv path]),
       Ok df)
  ∧ rows (enriched g e i recs)
    = map (fun r => [CStr (Name r);
                     CFloat (MC_USD_Billion r);
                     CFloat (rint (MC_USD_Billion r * g * 100) / 100);
                     CFloat (rint (MC_USD_Billion r * e * 100) / 100);
                     CFloat (rint (MC_USD_Billion r * i * 100) / 100)]) recs.
Proof.
  intros Hs Hr Hg He Hi.
  split; [intros code; apply to_dict_last_rate|].
  split; [|apply rows_enriched].
  eapply transform_records; [done|done|..]; by rewrite to_dict_last_rate.
Qed.

Lemma transform_last_row_wins_witness :
  frames (holding example_records) !! 0%nat = Some (frame_of_records example_records)
  ∧ read_rates (quiet (Ok example_page) (Ok repeated_rates)) csv_path = Ok repeated_rates
  ∧ last_rate "GBP" repeated_rates = Some 0.8%float
  ∧ last_rate "EUR" repeated_rates = Some 0.9%float
  ∧ last_rate "INR" repeated_rates = Some 83%float
  ∧ transform (quiet (Ok example_page) (Ok repeated_rates)) 0%nat csv_path
      (holding example_records)
    = (State [enriched 0.8 0.9 83 example_records] [EvReadCsv csv_path], Ok 0%nat)
  ∧ rows (enriched 0.8 0.9 83 example_records)
    = [[CStr "BankA"; CFloat 100.5; CFloat 80.4; CFloat 90.45; CFloat 8341.5];
       [CStr "BankB"; CFloat 50.25; CFloat 40.2; CFloat 45.22; CFloat 4170.75]].
Proof.
  destruct (transform_last_row_wins (quiet (Ok example_page) (Ok repeated_rates))
              (holding example_records) 0%nat csv_path example_records repeated_rates
              0.8 0.9 83 eq_refl eq_refl eq_refl eq_refl eq_refl) as (_ & Hrun & _).
  split; [reflexivity|]. split; [reflexivity|].
  split; [reflexivity|]. split; [reflexivity|]. split; [reflexivity|].
  split; [exact Hrun|]. vm_compute. reflexivity.
Defined.


Lemma transform_steps w s df path rate_rows :
  read_rates w path = Ok rate_rows ->
  transform w df path s
  = (add_column (to_dict rate_rows) df "MC_GBP_Billion" "GBP" ≫= (fun _ =>
     add_column (to_dict rate_rows) df "MC_EUR_Billion" "EUR" ≫= (fun _ =>
     add_column (to_dict rate_rows) df "MC_INR_Billion" "INR" ≫= (fun _ => mret df))))
      (State (frames s) (trace s ++ [EvReadCsv path])).
Proof. intros Hr. unfold transform, input. by rewrite Hr. Qed.

(** C3 (amended).  When the input frame holds at least one record and a
    required currency key is absent from the rate dictionary, [transform]
    raises [KeyError] for the first absent key in the order GBP, EUR, INR
    and returns nothing.  The columns of the keys before the absent one
    have then been added to the input frame: none when GBP is absent,
    MC_GBP_Billion when EUR is the first absent key, MC_GBP_Billion and
    MC_EUR_Billion when INR is. *)
Theorem transform_missing_rate w s df path r recs rate_rows :
  frames s !! df = Some (frame_of_records (r :: recs)) ->
  read_rates w path = Ok rate_rows ->
  (to_dict rate_rows !! "GBP" = None ->
   transform w df path s
   = (State (frames s) (trace s ++ [EvReadCsv path]), Raise (KeyError "GBP")))
  ∧ (∀ g, to_dict rate_rows !! "GBP" = Some g ->
          to_dict rate_rows !! "EUR" = None ->
     transform w df path s
     = (State (<[df := with_gbp g (r :: recs)]> (frames s)) (trace s ++ [EvReadCsv path]),
        Raise (KeyError "EUR")))
  ∧ (∀ g e, to_dict rate_rows !! "GBP" = Some g ->
            to_dict rate_rows !! "EUR" = Some e ->
            to_dict rate_rows !! "INR" = None ->
     transform w df path s
     = (State (<[df := with_eur g e (r :: recs)]> (frames s)) (trace s ++ [EvReadCsv path]),
        Raise (KeyError "INR"))).
Proof.
  intros Hs Hr.
  pose proof (lookup_lt_Some _ _ _ Hs) as Hlt.
  rewrite (transform_steps _ _ _ _ _ Hr).
  repeat split.
  - intros Hg. erewrite bind_raise; [reflexivity|].
    eapply add_column_missing; [exact Hs | reflexivity | exact Hg].
  - intros g Hg He.
    erewrite bind_ok; cycle 1.
    { eapply add_column_frame; [exact Hs | reflexivity | new_column | exact Hg]. }
    erewrite bind_raise; [reflexivity|].
    eapply add_column_missing; [by apply list_lookup_insert_eq | reflexivity | exact He].
  - intros g e Hg He Hi.
    erewrite bind_ok; cycle 1.
    { eapply add_column_frame; [exact Hs | reflexivity | new_column | exact Hg]. }
    erewrite bind_ok; cycle 1.
    { eapply add_column_frame;
        [by apply list_lookup_insert_eq | reflexivity | new_column | exact He]. }
    erewrite bind_raise; cycle 1.
    { eapply add_column_missing;
        [apply list_lookup_insert_eq; simpl; by rewrite length_insert
        | reflexivity | exact Hi]. }
    simpl. by rewrite !list_insert_insert_eq.
Qed.

Lemma transform_missing_rate_witness :
  frames (holding [bank_a]) !! 0%nat = Some (frame_of_records [bank_a])
  ∧ read_rates (quiet (Ok example_page) (Ok only_gbp)) csv_path = Ok only_gbp
  ∧ transform (quiet (Ok example_page) (Ok only_gbp)) 0%nat csv_path (holding [bank_a])
    = (State [with_gbp 0.8 [bank_a]] [EvReadCsv csv_path], Raise (KeyError "EUR")).
Proof.
  split; [reflexivity|]. split; [reflexivity|].
  apply (proj1 (proj2 (transform_missing_rate
                 (quiet (Ok example_page) (Ok only_gbp)) (holding [bank_a]) 0%nat csv_path
                 bank_a [] only_gbp eq_refl eq_refl)) 0.8%float);
    vm_compute; reflexivity.
Defined.



(** C3, as stated, fails: with a rate file that has GBP only, [transform]
    raises for EUR after it has added the MC_GBP_Billion column to the
    input frame, which is therefore not unchanged. *)
Lemma transform_only_gbp_partial :
  to_dict only_gbp !! "EUR" = None
  ∧ (transform (quiet (Ok example_page) (Ok only_gbp)) 0%nat csv_path (holding [bank_a])).2
    = Raise (KeyError "EUR")
  ∧ frames (transform (quiet (Ok example_page) (Ok only_gbp)) 0%nat csv_path
              (holding [bank_a])).1
    = [frame_of_records [bank_a] ++ [("MC_GBP_Billion", [CFloat 80.4])]]
  ∧ frames (transform (quiet (Ok example_page) (Ok only_gbp)) 0%nat csv_path
              (holding [bank_a])).1
    ≠ frames (holding [bank_a]).
Proof.
  split; [vm_compute; reflexivity|]. split; [vm_compute; reflexivity|].
  split; [vm_compute; reflexivity|].
  intros H. apply (f_equal (fun fs => length <$> (fs !! 0%nat))) in H.
  vm_compute in H. discriminate.
Qed.


Lemma untouched_frames s s' new : frames s' = frames s ++ new -> untouched s s'.
Proof. intros H l d Hl. rewrite H. by apply lookup_app_l_Some. Qed.

Lemma preserved_refl df s : preserved df s s.
Proof. split; eauto. Qed.

Lemma preserved_trans df s1 s2 s3 :
  preserved df s1 s2 -> preserved df s2 s3 -> preserved df s1 s3.
Proof.
  intros [Ho1 Hd1] [Ho2 Hd2]. split.
  - intros l d Hl H. by apply Ho2, Ho1.
  - intros d Hd. destruct (Hd1 d Hd) as (d1 & H1 & Hn1 & Hu1).
    destruct (Hd2 d1 H1) as (d2 & H2 & Hn2 & Hu2).
    exists d2. repeat split; congruence.
Qed.

Lemma preserved_frames df s s' : frames s' = frames s -> preserved df s s'.
Proof. intros H. unfold preserved. rewrite H. split; eauto. Qed.

Lemma bind_result {A B} (m : M A) (k : A -> M B) s v :
  ((m ≫= k) s).2 = Ok v -> ∃ a s1, m s = (s1, Ok a) ∧ (k a s1).2 = Ok v.
Proof.
  unfold mbind, M_bind. destruct (m s) as [s1 [a|e]]; [eauto|done].
Qed.

Lemma bind_preserved {A B} df (m : M A) (k : A -> M B) s :
  (∀ s, preserved df s (m s).1) -> (∀ v s, preserved df s (k v s).1) ->
  preserved df s ((m ≫= k) s).1.
Proof.
  intros Hm Hk. unfold mbind, M_bind. specialize (Hm s).
  destruct (m s) as [s1 [a|e]]; [|done].
  eapply preserved_trans; [exact Hm | apply Hk].
Qed.

Lemma bind_frames {A B} (m : M A) (k : A -> M B) s :
  (∀ s, frames (m s).1 = frames s) -> (∀ v s, frames (k v s).1 = frames s) ->
  frames ((m ≫= k) s).1 = frames s.
Proof.
  intros Hm Hk. unfold mbind, M_bind. specialize (Hm s).
  destruct (m s) as [s1 [a|e]]; [|done].
  simpl in Hm. by rewrite Hk.
Qed.

Lemma getitem_put_ne frame label col k :
  k ≠ label -> getitem (put frame label col) k = getitem frame k.
Proof.
  intros Hne. induction frame as [|[k0 c0] frame IH]; simpl.
  - by rewrite (proj2 (String.eqb_neq label k)).
  - destruct (String.eqb_spec k0 label) as [->|Hk0]; simpl.
    + by rewrite (proj2 (String.eqb_neq label k)).
    + by rewrite IH.
Qed.

(** An assignment that succeeds puts the column in its place. *)
Lemma setitem_put frame label col frame' :
  setitem frame label col = Ok frame' -> frame' = put frame label col.
Proof.
  destruct frame as [|c frame]; [by intros [= <-]|].
  unfold setitem. destruct (length col =? nrows (c :: frame))%nat; [|done].
  by intros [= <-].
Qed.

Lemma effect_frames ev failure s : frames (effect ev failure s).1 = frames s.
Proof. by destruct failure. Qed.

Lemma input_frames {A} ev (answer : result A) s : frames (input ev answer s).1 = frames s.
Proof. by destruct answer. Qed.

Lemma add_column_preserved d df label key s :
  label ≠ "Name" -> label ≠ "MC_USD_Billion" ->
  preserved df s (add_column d df label key s).1.
Proof.
  intros Hn Hu. unfold add_column, get_column, set_column.
  unfold mbind, M_bind, load, lift, store.
  destruct (frames s !! df) as [frame|] eqn:Hs; [|apply preserved_refl].
  destruct (getitem frame "MC_USD_Billion") as [usd|]; [|apply preserved_refl].
  destruct (comprehension (convert d key) usd) as [col|]; [|apply preserved_refl].
  rewrite Hs.
  destruct (setitem frame label col) as [frame'|] eqn:Hset; [|apply preserved_refl].
  apply setitem_put in Hset as ->. split; simpl.
  - intros l d0 Hl Hd0. by rewrite list_lookup_insert_ne.
  - intros d0 Hd0. rewrite Hs in Hd0. injection Hd0 as <-.
    exists (put frame label col).
    split; [apply list_lookup_insert_eq; by eapply lookup_lt_Some|].
    split; by apply getitem_put_ne.
Qed.

(** What a conversion and a comprehension that succeed have computed. *)
Lemma convert_returns d key x y :
  convert d key x = Ok y ->
  ∃ v rate, x = CFloat v ∧ d !! key = Some rate ∧ y = CFloat (rint (v * rate * 100) / 100).
Proof.
  unfold convert, dict_get. destruct (d !! key) as [rate|]; [|done]. simpl.
  destruct x as [|v]; [done|]. intros [= <-]. by eauto.
Qed.

Lemma comprehension_derived d key usd col :
  comprehension (convert d key) usd = Ok col -> derived d key usd col.
Proof.
  revert col. induction usd as [|x usd IH]; intros col H; simpl in H.
  - injection H as <-. constructor.
  - destruct (convert d key x) as [y|] eqn:Hx; [|done]. simpl in H.
    destruct (comprehension (convert d key) usd) as [ys|]; [|done].
    simpl in H. injection H as <-.
    constructor; [by apply convert_returns|by apply IH].
Qed.

(** What a column assignment that returns has done. *)
Lemma add_column_returns d df label key s s' :
  add_column d df label key s = (s', Ok tt) ->
  ∃ frame usd col,
    frames s !! df = Some frame
    ∧ getitem frame "MC_USD_Billion" = Ok usd
    ∧ derived d key usd col
    ∧ s' = State (<[df := put frame label col]> (frames s)) (trace s).
Proof.
  unfold add_column, get_column, set_column.
  unfold mbind, M_bind, load, lift, store.
  destruct (frames s !! df) as [frame|] eqn:Hs; [|done].
  destruct (getitem frame "MC_USD_Billion") as [usd|] eqn:Hget; [|done].
  destruct (comprehension (convert d key) usd) as [col|] eqn:Hcol; [|done].
  rewrite Hs.
  destruct (setitem frame label col) as [frame'|] eqn:Hset; [|done].
  apply setitem_put in Hset as ->. intros [= <-].
  exists frame, usd, col. by auto using comprehension_derived.
Qed.

(** What a call of [transform] that returns has done to its input. *)
Lemma transform_returns w s df path v :
  (transform w df path s).2 = Ok v ->
  v = df
  ∧ ∃ rate_rows d usd gbp eur inr,
      read_rates w path = Ok rate_rows
      ∧ frames s !! df = Some d
      ∧ getitem d "MC_USD_Billion" = Ok usd
      ∧ derived (to_dict rate_rows) "GBP" usd gbp
      ∧ derived (to_dict rate_rows) "EUR" usd eur
      ∧ derived (to_dict rate_rows) "INR" usd inr
      ∧ frames (transform w df path s).1 !! df
        = Some (put (put (put d "MC_GBP_Billion" gbp) "MC_EUR_Billion" eur)
                  "MC_INR_Billion" inr).
Proof.
  destruct (read_rates w path) as [rate_rows|e0] eqn:Hr;
    [|unfold transform, input; by rewrite Hr].
  rewrite (transform_steps _ _ _ _ _ Hr).
  set (s0 := State (frames s) (trace s ++ [EvReadCsv path])).
  unfold mbind, M_bind.
  destruct (add_column _ df "MC_GBP_Billion" "GBP" s0) as [s1 [[]|e1]] eqn:H1; [|done].
  destruct (add_column _ df "MC_EUR_Billion" "EUR" s1) as [s2 [[]|e2]] eqn:H2; [|done].
  destruct (add_column _ df "MC_INR_Billion" "INR" s2) as [s3 [[]|e3]] eqn:H3; [|done].
  intros [= <-]. split; [done|].
  apply add_column_returns in H1 as (d & usd & gbp & Hd & Husd & Hgbp & ->).
  pose proof (lookup_lt_Some _ _ _ Hd) as Hlt.
  apply add_column_returns in H2 as (d1 & usd1 & eur & Hd1 & Husd1 & Heur & ->).
  simpl in Hd1. rewrite list_lookup_insert_eq in Hd1 by done. injection Hd1 as <-.
  rewrite getitem_put_ne in Husd1 by done.
  apply add_column_returns in H3 as (d2 & usd2 & inr & Hd2 & Husd2 & Hinr & ->).
  simpl in Hd2. rewrite list_lookup_insert_eq in Hd2 by (by rewrite length_insert).
  injection Hd2 as <-. rewrite !getitem_put_ne in Husd2 by done.
  assert (usd1 = usd) as -> by congruence. assert (usd2 = usd) as -> by congruence.
  exists rate_rows, d, usd, gbp, eur, inr. simpl in *.
  repeat (split; [done|]).
  apply list_lookup_insert_eq. by rewrite !length_insert.
Qed.

(** C5 (amended).  [transform] works on its input frame in place.  When
    it returns, it returns the input frame itself, and that frame has
    changed: the three derived columns MC_GBP_Billion, MC_EUR_Billion and
    MC_INR_Billion, computed row by row from its MC_USD_Billion column,
    have been assigned to it.  Whether it returns or raises, every other
    frame that existed before the call is what it was, and the input frame
    has kept its Name and MC_USD_Billion columns.  The loaders, the query
    and [extract] leave every frame that existed before the call as it
    was. *)
Theorem transform_in_place w s df path :
  preserved df s (transform w df path s).1
  ∧ (∀ v, (transform w df path s).2 = Ok v ->
       v = df
       ∧ ∃ rate_rows d usd gbp eur inr,
           read_rates w path = Ok rate_rows
           ∧ frames s !! df = Some d
           ∧ getitem d "MC_USD_Billion" = Ok usd
           ∧ derived (to_dict rate_rows) "GBP" usd gbp
           ∧ derived (to_dict rate_rows) "EUR" usd eur
           ∧ derived (to_dict rate_rows) "INR" usd inr
           ∧ frames (transform w df path s).1 !! df
             = Some (put (put (put d "MC_GBP_Billion" gbp) "MC_EUR_Billion" eur)
                       "MC_INR_Billion" inr))
  ∧ untouched s (load_to_csv w df path s).1
  ∧ (∀ conn table, untouched s (load_to_db w df conn table s).1)
  ∧ (∀ query conn, untouched s (run_query w query conn s).1)
  ∧ (∀ u attribs, untouched s (extract w u attribs s).1).
Proof.
  split; [|split; [|split; [|split; [|split]]]].
  - unfold transform. apply bind_preserved.
    + intros s0. apply preserved_frames, input_frames.
    + intros rate_rows s0.
      repeat (apply bind_preserved; [intros ?; by apply add_column_preserved | intros ? ?]).
      apply preserved_refl.
  - intros v. apply transform_returns.
  - apply (untouched_frames _ _ []). rewrite app_nil_r.
    unfold load_to_csv. apply bind_frames; [done|]. intros d s0. apply effect_frames.
  - intros conn table. apply (untouched_frames _ _ []). rewrite app_nil_r.
    unfold load_to_db. apply bind_frames; [done|]. intros d s0. apply effect_frames.
  - intros query conn. apply (untouched_frames _ _ []). rewrite app_nil_r.
    unfold run_query. apply bind_frames; [done|]. intros [] s0.
    apply bind_frames; [apply input_frames | done].
  - intros u attribs. unfold extract, mbind, M_bind.
    destruct (input (EvGet u) (http_get w u) s) as [s0 [data|e]] eqn:Hin;
      [|apply (untouched_frames _ _ []); rewrite app_nil_r;
        by rewrite <- (input_frames (EvGet u) (http_get w u) s), Hin].
    assert (frames s0 = frames s) as Hs0
        by (by rewrite <- (input_frames (EvGet u) (http_get w u) s), Hin).
    simpl. unfold lift. rewrite Hs0.
    destruct (table_rows data) as [rows|e]; [|by eapply untouched_frames].
    destruct (scan_rows rows [] []) as [[names caps]|e]; [|by eapply untouched_frames].
    simpl. rewrite <- app_assoc. by eapply untouched_frames.
Qed.

Lemma transform_in_place_witness :
  (transform (quiet (Ok example_page) (Ok example_rates)) 0%nat csv_path
     (holding example_records)).2 = Ok 0%nat
  ∧ ∃ rate_rows d usd gbp eur inr,
      read_rates (quiet (Ok example_page) (Ok example_rates)) csv_path = Ok rate_rows
      ∧ frames (holding example_records) !! 0%nat = Some d
      ∧ getitem d "MC_USD_Billion" = Ok usd
      ∧ derived (to_dict rate_rows) "GBP" usd gbp
      ∧ derived (to_dict rate_rows) "EUR" usd eur
      ∧ derived (to_dict rate_rows) "INR" usd inr
      ∧ frames (transform (quiet (Ok example_page) (Ok example_rates)) 0%nat csv_path
                  (holding example_records)).1 !! 0%nat
        = Some (put (put (put d "MC_GBP_Billion" gbp) "MC_EUR_Billion" eur)
                  "MC_INR_Billion" inr).
Proof.
  assert ((transform (quiet (Ok example_page) (Ok example_rates)) 0%nat csv_path
             (holding example_records)).2 = Ok 0%nat) as H by (vm_compute; reflexivity).
  split; [exact H|].
  exact (proj2 (proj1 (proj2 (transform_in_place
                  (quiet (Ok example_page) (Ok example_rates)) (holding example_records)
                  0%nat csv_path)) 0%nat H)).
Defined.

(** C5, as stated, fails: on the sample records [transform] returns the
    very object it was given, and that object is no longer what it was: it
    had two columns and has five. *)
Lemma transform_mutates_input :
  (transform (quiet (Ok example_page) (Ok example_rates)) 0%nat csv_path
     (holding example_records)).2 = Ok 0%nat
  ∧ labels <$> frames (holding example_records) !! 0%nat = Some ["Name"; "MC_USD_Billion"]
  ∧ labels <$> frames (transform (quiet (Ok example_page) (Ok example_rates)) 0%nat csv_path
                         (holding example_records)).1 !! 0%nat
    = Some enriched_labels
  ∧ frames (transform (quiet (Ok example_page) (Ok example_rates)) 0%nat csv_path
              (holding example_records)).1 !! 0%nat
    ≠ frames (holding example_records) !! 0%nat.
Proof.
  split; [vm_compute; reflexivity|]. split; [vm_compute; reflexivity|].
  split; [vm_compute; reflexivity|].
  intros H. apply (f_equal (fmap (length (A:=_)))) in H.
  vm_compute in H. discriminate.
Qed.

(** *** [extract] *)

(** One turn of the loop, by the number of cells of the row. *)
Lemma scan_rows_skip row rows names caps :
  three_cells row = false ->
  scan_rows (row :: rows) names caps = scan_rows rows names caps.
Proof.
  unfold three_cells, cells. simpl.
  destruct (find_all "td" row) as [|a [|b [|c [|d l]]]]; done.
Qed.

Lemma scan_rows_take row rows names caps x :
  three_cells row = true -> py_float (cell_text_at 2 row) = Some x ->
  scan_rows (row :: rows) names caps
  = scan_rows rows (names ++ [cell_text_at 1 row]) (caps ++ [x]).
Proof.
  unfold three_cells, cell_text_at, cells. simpl.
  destruct (find_all "td" row) as [|a [|b [|c [|d l]]]]; try done.
  simpl. by intros _ ->.
Qed.

Lemma scan_rows_bad row rows names caps :
  three_cells row = true -> py_float (cell_text_at 2 row) = None ->
  scan_rows (row :: rows) names caps = Raise ValueError.
Proof.
  unfold three_cells, cell_text_at, cells. simpl.
  destruct (find_all "td" row) as [|a [|b [|c [|d l]]]]; try done.
  simpl. by intros _ ->.
Qed.

Lemma scan_rows_ok rows names caps :
  existsb bad_row rows = false ->
  scan_rows rows names caps
  = Ok (names ++ map Name (records_of_rows rows),
        caps ++ map MC_USD_Billion (records_of_rows rows)).
Proof.
  revert names caps. induction rows as [|row rows IH]; intros names caps Hok.
  - simpl. by rewrite !app_nil_r.
  - simpl in Hok. apply orb_false_elim in Hok as [Hrow Hok].
    unfold records_of_rows. simpl List.filter.
    unfold bad_row, numeric in Hrow.
    destruct (three_cells row) eqn:H3.
    + destruct (py_float (cell_text_at 2 row)) as [x|] eqn:Hx; [|done].
      rewrite (scan_rows_take _ _ _ _ _ H3 Hx), IH by done.
      unfold records_of_rows, record_of_row at 2 4. simpl. rewrite Hx. simpl.
      by rewrite <- !app_assoc.
    + by rewrite (scan_rows_skip _ _ _ _ H3), IH.
Qed.

Lemma scan_rows_raise rows names caps :
  existsb bad_row rows = true -> scan_rows rows names caps = Raise ValueError.
Proof.
  revert names caps. induction rows as [|row rows IH]; intros names caps Hbad; [done|].
  simpl in Hbad. unfold bad_row at 1, numeric in Hbad.
  destruct (three_cells row) eqn:H3.
  - destruct (py_float (cell_text_at 2 row)) as [x|] eqn:Hx.
    + rewrite (scan_rows_take _ _ _ _ _ H3 Hx). by apply IH.
    + by apply scan_rows_bad.
  - rewrite (scan_rows_skip _ _ _ _ H3). by apply IH.
Qed.

(** [extract] once the page is fetched. *)
Lemma extract_steps w s u attribs data :
  http_get w u = Ok data ->
  extract w u attribs s
  = let s1 := State (frames s ++ [map (fun a => (a, [])) attribs]) (trace s ++ [EvGet u]) in
    match table_rows data with
    | Raise e => (s1, Raise e)
    | Ok rows =>
        match scan_rows rows [] [] with
        | Raise e => (s1, Raise e)
        | Ok (names, caps) =>
            (State (frames s1 ++ [[("Name", map CStr names);
                                   ("MC_USD_Billion", map CFloat caps)]]) (trace s1),
             Ok (length (frames s1)))
        end
    end.
Proof.
  intros Hget. unfold extract, input. rewrite Hget.
  unfold mbind, M_bind, emit, alloc, lift, mret, M_ret. simpl.
  destruct (table_rows data) as [rows|e]; [|done].
  by destruct (scan_rows rows [] []) as [[names caps]|e].
Qed.

(** C2 (amended).  For every fetched page that has a [tbody] inside a
    [table], and in which no row after the first of the first such body
    has exactly three cells and a third cell that [float] refuses,
    [extract] skips the first row of that body, takes every remaining row
    of exactly three [td] cells, in document order, as the record whose
    Name is the stripped text of the second cell and whose market cap is
    the stripped text of the third cell read as a float, passes over the
    rows with another number of cells, and returns a new frame of as many
    records as there are rows of three cells. *)
Theorem extract_three_cell_rows w s u attribs data tbody others :
  http_get w u = Ok data ->
  select "table" "tbody" data = tbody :: others ->
  existsb bad_row (tail (find_all "tr" tbody)) = false ->
  extract w u attribs s
  = (State (frames s ++ [map (fun a => (a, [])) attribs;
                         frame_of_records (records_of_rows (tail (find_all "tr" tbody)))])
           (trace s ++ [EvGet u]),
     Ok (S (length (frames s))))
  ∧ length (records_of_rows (tail (find_all "tr" tbody)))
    = length (List.filter three_cells (tail (find_all "tr" tbody)))
  ∧ ∀ row, row ∈ List.filter three_cells (tail (find_all "tr" tbody)) ->
           Name (record_of_row row) = cell_text_at 1 row
           ∧ py_float (cell_text_at 2 row) = Some (MC_USD_Billion (record_of_row row)).
Proof.
  intros Hget Hsel Hok. split; [|split].
  - rewrite (extract_steps _ _ _ _ _ Hget). unfold table_rows. rewrite Hsel.
    rewrite (scan_rows_ok _ _ _ Hok). simpl.
    rewrite <- app_assoc, length_app, Nat.add_1_r. simpl.
    unfold frame_of_records, name_cell, usd_cell. by rewrite !map_map.
  - unfold records_of_rows. by rewrite length_map.
  - intros row Hin. split; [done|].
    apply list_elem_of_In, filter_In in Hin as [Hin H3].
    assert (bad_row row = false) as Hrow.
    { destruct (bad_row row) eqn:Hb; [|done].
      assert (existsb bad_row (tail (find_all "tr" tbody)) = true) as Hex
          by (apply existsb_exists; eauto).
      congruence. }
    unfold bad_row, numeric in Hrow. rewrite H3 in Hrow. unfold record_of_row. simpl.
    by destruct (py_float (cell_text_at 2 row)).
Qed.



Lemma extract_three_cell_rows_witness :
  http_get (quiet (Ok example_page) (Ok example_rates)) url = Ok example_page
  ∧ select "table" "tbody" example_page = [example_tbody]
  ∧ existsb bad_row (tail (find_all "tr" example_tbody)) = false
  ∧ extract (quiet (Ok example_page) (Ok example_rates)) url table_attribs start
    = (State [[("Name", []); ("MC_USD_Billion", [])]; frame_of_records example_records]
             [EvGet url],
       Ok 1%nat).
Proof.
  assert (select "table" "tbody" example_page = [example_tbody]) as Hsel
      by (vm_compute; reflexivity).
  assert (existsb bad_row (tail (find_all "tr" example_tbody)) = false) as Hok
      by (vm_compute; reflexivity).
  split; [reflexivity|]. split; [exact Hsel|]. split; [exact Hok|].
  destruct (extract_three_cell_rows (quiet (Ok example_page) (Ok example_rates)) start
              url table_attribs example_page example_tbody [] eq_refl Hsel Hok)
    as [Hrun _].
  rewrite Hrun. vm_compute. reflexivity.
Defined.

(** C2, as stated, fails: a page whose table has no [tbody] contains a
    table and one well-formed row of three cells after the header, yet
    [extract] raises [IndexError] and returns no record. *)
Lemma extract_table_without_tbody :
  find_all "table" page_without_tbody ≠ []
  ∧ length (List.filter three_cells (tail (find_all "tr" page_without_tbody))) = 1%nat
  ∧ existsb bad_row (tail (find_all "tr" page_without_tbody)) = false
  ∧ extract (quiet (Ok page_without_tbody) (Ok example_rates)) url table_attribs start
    = (State [[("Name", []); ("MC_USD_Billion", [])]] [EvGet url], Raise IndexError).
Proof.
  split; [vm_compute; discriminate|].
  repeat split; vm_compute; reflexivity.
Qed.



(** *** The sample run *)

(** C8 (amended).  For the input rows ("BankA", "100.5") and
    ("BankB", "50.25"), whose market caps [float] reads as 100.5 and 50.25,
    and the rates GBP 0.8, EUR 0.9 and INR 80.0, [transform] outputs
    BankA with 100.5, 80.4, 90.45 and 8040.0 and BankB with 50.25, 40.2,
    45.22 and 4020.0. *)
Theorem transform_example :
  py_float "100.5" = Some 100.5%float
  ∧ py_float "50.25" = Some 50.25%float
  ∧ transform (quiet (Ok example_page) (Ok example_rates)) 0%nat csv_path
      (holding example_records)
    = (State [example_output] [EvReadCsv csv_path], Ok 0%nat)
  ∧ rows example_output
    = [[CStr "BankA"; CFloat 100.5; CFloat 80.4; CFloat 90.45; CFloat 8040];
       [CStr "BankB"; CFloat 50.25; CFloat 40.2; CFloat 45.22; CFloat 4020]].
Proof. repeat split; vm_compute; reflexivity. Qed.

(** C8, as stated, fails: the product 50.25 * 0.9 is the float
    45.225000000000001, a hundred times which is the float 4522.5, which
    [rint] takes to the even 4522; the EUR market cap of BankB is 45.22 and
    the output is not the one with 45.23. *)
Lemma transform_example_not_claimed :
  (50.25 * 0.9 = 45.225000000000001)%float
  ∧ np_round2 (50.25 * 0.9) = 45.22%float
  ∧ transform (quiet (Ok example_page) (Ok example_rates)) 0%nat csv_path
      (holding example_records)
    ≠ (State [claimed_output] [EvReadCsv csv_path], Ok 0%nat).
Proof.
  split; [vm_compute; reflexivity|]. split; [vm_compute; reflexivity|].
  intros H.
  apply (f_equal (fun out => frames out.1 !! 0%nat ≫= second_eur)) in H.
  vm_compute in H. discriminate.
Qed.

(** *** The CSV file *)

Lemma csv_rows_enriched g e i recs :
  csv_rows (enriched g e i recs)
  = enriched_labels :: map (fun r => map cell_text (enriched_row g e i r)) recs.
Proof. unfold csv_rows. by rewrite rows_enriched, map_map. Qed.

(** The row of a record as the writer writes it. *)
Lemma writerow_enriched g e i r :
  writerow (map cell_text (enriched_row g e i r)) = csv_line g e i r.
Proof. unfold csv_line, float_field. simpl. by destruct (Name r). Qed.

Lemma to_csv_enriched g e i recs :
  to_csv (enriched g e i recs) = csv_header +:+ concat (map (csv_line g e i) recs).
Proof.
  unfold to_csv. rewrite csv_rows_enriched. simpl map at 1.
  change (concat (?x :: ?l)) with (x +:+ concat l).
  f_equal. rewrite map_map. f_equal. apply map_ext. intros r. apply writerow_enriched.
Qed.

(** C9 (amended).  The CSV file that [load_to_csv] writes for the frame
    of enriched records starts with the header line
    [Name,MC_USD_Billion,MC_GBP_Billion,MC_EUR_Billion,MC_INR_Billion] and
    continues with one line per bank record, in order.  The fields of a
    line, with commas between them, are the name, the market cap and the
    three derived values; a value is written by its [repr], the shortest
    text that reads back as the same float, and not padded to two decimal
    places; a value that is NaN is written as the empty field; a field
    that holds a comma, a quote or a newline is written quoted. *)
Theorem load_to_csv_text w s df path g e i recs :
  frames s !! df = Some (enriched g e i recs) ->
  file_write w path (to_csv (enriched g e i recs)) = None ->
  load_to_csv w df path s
  = (State (frames s) (trace s ++ [EvWriteCsv path (to_csv (enriched g e i recs))]),
     Ok tt)
  ∧ to_csv (enriched g e i recs) = csv_header +:+ concat (map (csv_line g e i) recs)
  ∧ length (map (csv_line g e i) recs) = length recs
  ∧ ∀ r, csv_line g e i r
         = join ","
             (map csv_field
                [Name r;
                 float_field (MC_USD_Billion r);
                 float_field (rint (MC_USD_Billion r * g * 100) / 100);
                 float_field (rint (MC_USD_Billion r * e * 100) / 100);
                 float_field (rint (MC_USD_Billion r * i * 100) / 100)])
           +:+ lineterminator.
Proof.
  intros Hs Hw. split; [|split; [apply to_csv_enriched|split; [apply length_map|done]]].
  unfold load_to_csv, mbind, M_bind, load. rewrite Hs. unfold effect. by rewrite Hw.
Qed.

Lemma load_to_csv_text_witness :
  frames (State [enriched 0.8 0.9 80 [bank_a; nan_bank]] []) !! 0%nat
  = Some (enriched 0.8 0.9 80 [bank_a; nan_bank])
  ∧ file_write (quiet (Ok example_page) (Ok example_rates)) output_cv_path
      (to_csv (enriched 0.8 0.9 80 [bank_a; nan_bank])) = None
  ∧ to_csv (enriched 0.8 0.9 80 [bank_a; nan_bank])
    = concat (map (fun l => l +:+ lineterminator)
                ["Name,MC_USD_Billion,MC_GBP_Billion,MC_EUR_Billion,MC_INR_Billion";
                 "BankA,100.5,80.4,90.45,8040.0";
                 "BankN,,,,"]).
Proof.
  split; [reflexivity|]. split; [reflexivity|].
  rewrite (proj1 (proj2 (load_to_csv_text
             (quiet (Ok example_page) (Ok example_rates))
             (State [enriched 0.8 0.9 80 [bank_a; nan_bank]] []) 0%nat output_cv_path
             0.8 0.9 80 [bank_a; nan_bank] eq_refl eq_refl))).
  vm_compute. reflexivity.
Defined.

(** C9, as stated, fails: in the file of the sample records the derived
    values are written 80.4, 90.45, 8040.0 and 40.2, 45.22, 4020.0; the
    GBP and INR fields have one decimal place. *)
Lemma csv_example_places :
  to_csv (enriched 0.8 0.9 80 example_records)
  = concat (map (fun l => l +:+ lineterminator) example_csv_lines)
  ∧ map (fun row => map decimal_places (drop 2 row))
        (tail (csv_rows (enriched 0.8 0.9 80 example_records)))
    = [[Some 1%nat; Some 2%nat; Some 1%nat]; [Some 1%nat; Some 2%nat; Some 1%nat]].
Proof. split; vm_compute; reflexivity. Qed.

(** *** The connection during a run *)


Lemma keeps_plain_bind {A B} (m : M A) (k : A -> M B) :
  keeps_plain m -> (∀ v, keeps_plain (k v)) -> keeps_plain (m ≫= k).
Proof.
  intros Hm Hk s Hs. unfold mbind, M_bind. specialize (Hm s Hs).
  destruct (m s) as [s1 [v|e]]; [by apply Hk | done].
Qed.

Lemma keeps_plain_trace {A} (m : M A) :
  (∀ s, trace (m s).1 = trace s) -> keeps_plain m.
Proof. intros Hm s Hs. by rewrite Hm. Qed.

Lemma keeps_plain_emit ev : plain ev = true -> keeps_plain (emit ev).
Proof.
  intros Hev s Hs. simpl. rewrite forallb_app, Hs. simpl. by rewrite Hev.
Qed.

Lemma keeps_plain_effect ev failure : plain ev = true -> keeps_plain (effect ev failure).
Proof.
  intros Hev. destruct failure; [by apply keeps_plain_trace|by apply keeps_plain_emit].
Qed.

Lemma keeps_plain_input {A} ev (answer : result A) :
  plain ev = true -> keeps_plain (input ev answer).
Proof.
  intros Hev. destruct answer; [|by apply keeps_plain_trace].
  apply keeps_plain_bind; [by apply keeps_plain_emit|].
  intros []. by apply keeps_plain_trace.
Qed.

Lemma keeps_plain_add_column d df label key : keeps_plain (add_column d df label key).
Proof.
  apply keeps_plain_trace. intros s. unfold add_column, get_column, set_column.
  unfold mbind, M_bind, load, lift, store.
  destruct (frames s !! df) as [frame|] eqn:Hs; [|done].
  destruct (getitem frame "MC_USD_Billion") as [usd|]; [|done].
  destruct (comprehension (convert d key) usd) as [col|]; [|done].
  rewrite Hs. by destruct (setitem frame label col).
Qed.

Lemma keeps_plain_log w message : keeps_plain (log_progress w message).
Proof. by apply keeps_plain_effect. Qed.

Lemma keeps_plain_extract w u attribs : keeps_plain (extract w u attribs).
Proof.
  unfold extract.
  apply keeps_plain_bind; [by apply keeps_plain_input|]. intros data.
  apply keeps_plain_bind; [by apply keeps_plain_trace|]. intros _.
  apply keeps_plain_bind; [by apply keeps_plain_trace|]. intros rows.
  apply keeps_plain_bind; [by apply keeps_plain_trace|]. intros [names caps].
  by apply keeps_plain_trace.
Qed.

Lemma keeps_plain_transform w df path : keeps_plain (transform w df path).
Proof.
  unfold transform.
  apply keeps_plain_bind; [by apply keeps_plain_input|]. intros rate_rows.
  repeat (apply keeps_plain_bind; [apply keeps_plain_add_column|intros _]).
  by apply keeps_plain_trace.
Qed.

Lemma keeps_plain_load_to_csv w df path : keeps_plain (load_to_csv w df path).
Proof.
  unfold load_to_csv.
  apply keeps_plain_bind; [by apply keeps_plain_trace|]. intros d.
  by apply keeps_plain_effect.
Qed.

Lemma plain_counts t : forallb plain t = true -> opened t = 0%nat ∧ closed t = 0%nat.
Proof.
  unfold opened, closed. induction t as [|ev t IH]; [done|].
  simpl. intros [Hev Ht]%andb_prop. destruct (IH Ht) as [Ho Hc].
  unfold plain in Hev. by destruct ev.
Qed.

Lemma opened_app t1 t2 : opened (t1 ++ t2) = (opened t1 + opened t2)%nat.
Proof. unfold opened. by rewrite List.filter_app, length_app. Qed.

Lemma closed_app t1 t2 : closed (t1 ++ t2) = (closed t1 + closed t2)%nat.
Proof. unfold closed. by rewrite List.filter_app, length_app. Qed.

(** A run that stops before it opens the connection. *)
Lemma raise_before_connect s e :
  forallb plain (trace s) = true -> connection_used (s, Raise e).
Proof.
  intros [Ho Hc]%plain_counts. unfold connection_used. simpl.
  rewrite Ho. split; [lia|]. split; [done|]. by intros _ _.
Qed.

(** A run that stops once the connection is open. *)
Lemma raise_in_session fs pre evs e :
  forallb plain pre = true -> (opened evs <= 1)%nat -> closed evs = 0%nat ->
  connection_used (State fs (pre ++ evs), Raise e).
Proof.
  intros [Ho Hc]%plain_counts Hevs Hcl. unfold connection_used. simpl.
  rewrite opened_app, closed_app, Ho, Hc, Hcl. split; [lia|]. split; [done|]. by intros _ _.
Qed.

Lemma return_after_session fs pre d answer :
  forallb plain pre = true ->
  connection_used (State fs (pre ++ session d answer), Ok tt).
Proof.
  intros Hpre. pose proof (plain_counts _ Hpre) as [Ho Hc].
  unfold connection_used. simpl.
  rewrite opened_app, Ho. split; [by cbv|]. split; [by eauto|]. by intros e.
Qed.

(** Running a bind: the rest of the run after a return, the end after a
    raise. *)
Lemma bind_cases {A B} (m : M A) (k : A -> M B) s (Q : state * result B -> Prop) :
  (∀ s1 v, m s = (s1, Ok v) -> Q (k v s1)) ->
  (∀ s1 e, m s = (s1, Raise e) -> Q (s1, Raise e)) ->
  Q ((m ≫= k) s).
Proof.
  intros Hok Hraise. unfold mbind, M_bind.
  destruct (m s) as [s1 [v|e]] eqn:Hm; [by apply Hok | by apply Hraise].
Qed.


Lemma from_connect_used w df s :
  forallb plain (trace s) = true -> connection_used (from_connect w df s).
Proof.
  intros Hs. destruct s as [fs pre]. simpl in Hs.
  unfold from_connect, connect, log_progress, load_to_db, run_query, close.
  unfold effect, input, mbind, M_bind, load, emit, lift, mret, M_ret. simpl.
  destruct (db_connect w "Banks.db"); simpl;
    [by apply raise_before_connect|].
  destruct (log_append w "SQL Connection initiated."); simpl;
    [by apply raise_in_session|].
  destruct (fs !! df) as [d|]; simpl;
    [|rewrite <- !app_assoc; by apply raise_in_session].
  destruct (db_to_sql w (Connection "Banks.db") table_name d); simpl;
    [rewrite <- !app_assoc; by apply raise_in_session|].
  destruct (log_append w "Data loaded to Database as table. Running the query"); simpl;
    [rewrite <- !app_assoc; by apply raise_in_session|].
  destruct (db_read_sql w (Connection "Banks.db") query_statement) as [answer|]; simpl;
    [|rewrite <- !app_assoc; by apply raise_in_session].
  destruct (log_append w "Process Complete."); simpl;
    [rewrite <- !app_assoc; by apply raise_in_session|].
  destruct (db_close w (Connection "Banks.db")); simpl;
    [rewrite <- !app_assoc; by apply raise_in_session|].
  rewrite <- !app_assoc. by apply return_after_session.
Qed.

Ltac before_connect :=
  match goal with
  | Hs : forallb plain (trace ?s) = true |- connection_used ((?m ≫= _) ?s) =>
      let Hk := fresh "Hk" in
      let Hm := fresh "Hm" in
      assert (keeps_plain m) as Hk
          by first [ apply keeps_plain_log | apply keeps_plain_extract
                   | apply keeps_plain_transform | apply keeps_plain_load_to_csv ];
      specialize (Hk s Hs);
      apply bind_cases; intros ? ? Hm; rewrite Hm in Hk; simpl in Hk; clear Hs Hm;
      [ | by apply raise_before_connect ]
  end.

Lemma main_connection_used w : connection_used (main w start).
Proof.
  unfold main.
  assert (forallb plain (trace start) = true) as Hs by done.
  revert Hs. generalize start. intros s Hs.
  do 7 before_connect.
  by apply from_connect_used.
Qed.

(** C6 (amended).  On every run the connection is opened at most once.  A
    run that succeeds opens it once, after every other stage, uses it for
    the table write and then for the query, and closes it as its last
    action.  A run in which a stage fails, before or after the connection
    is opened, ends without closing it. *)
Theorem main_connection w :
  (opened (trace (main w start).1) <= 1)%nat
  ∧ ((main w start).2 = Ok tt ->
     ∃ pre d answer,
       trace (main w start).1 = pre ++ session d answer
       ∧ opened pre = 0%nat ∧ closed pre = 0%nat)
  ∧ (∀ e, (main w start).2 = Raise e -> closed (trace (main w start).1) = 0%nat).
Proof.
  destruct (main_connection_used w) as (Hopen & Hok & Hraise).
  split; [exact Hopen|]. split; [|exact Hraise].
  intros Hret. destruct (Hok Hret) as (pre & d & answer & Ht & Hpre).
  exists pre, d, answer. by destruct (plain_counts _ Hpre).
Qed.

(** C6, as stated, fails: when the table write fails the run has opened
    the connection and ends without closing it. *)
Lemma main_failing_write_leaves_open :
  (main (failing_to_sql (Ok example_page) (Ok example_rates)) start).2
  = Raise DatabaseError
  ∧ opened (trace (main (failing_to_sql (Ok example_page) (Ok example_rates)) start).1)
    = 1%nat
  ∧ closed (trace (main (failing_to_sql (Ok example_page) (Ok example_rates)) start).1)
    = 0%nat.
Proof. repeat split; vm_compute; reflexivity. Qed.

End Props.

(** ** Further properties *)

Module More.
Import PyStr PyFloat Soup Frame Run Banks Records Examples Script Props.
#[local] Set Warnings "-inexact-float".

(** *** The rate dictionary *)

Lemma fold_insert_is_Some (rows : list (string * float)) (d : gmap string float) code :
  is_Some (fold_left (fun d row => <[row.1 := row.2]> d) rows d !! code)
  <-> code ∈ rows.*1 ∨ is_Some (d !! code).
Proof.
  revert d. induction rows as [|[k v] rows IH]; intros d; simpl.
  - split; [by right|]. intros [Hin|H]; [by apply elem_of_nil in Hin|done].
  - rewrite IH, elem_of_cons. destruct (decide (k = code)) as [->|Hne].
    + rewrite lookup_insert_eq. split; [|by eauto]. intros _. left. by left.
    + rewrite lookup_insert_ne by done. split.
      * intros [H|H]; [left; by right|by right].
      * intros [[H|H]|H]; [congruence|by left|by right].
Qed.

(** X1.  A currency code is a key of the rate dictionary exactly when some
    row of the rate file has it. *)
Theorem to_dict_keys (rate_rows : list (string * float)) code :
  is_Some (to_dict rate_rows !! code) <-> code ∈ rate_rows.*1.
Proof.
  unfold to_dict. rewrite fold_insert_is_Some, lookup_empty.
  split; [|by left]. intros [H|[x H]]; done.
Qed.

(** *** [transform] and the rates *)

Lemma comprehension_ext {A B} (f g : A -> result B) xs :
  (∀ x, f x = g x) -> comprehension f xs = comprehension g xs.
Proof. intros Hfg. induction xs as [|x xs IH]; [done|]. simpl. by rewrite Hfg, IH. Qed.

Lemma add_column_ext (d1 d2 : gmap string float) df label key s :
  d1 !! key = d2 !! key -> add_column d1 df label key s = add_column d2 df label key s.
Proof.
  intros Hd. unfold add_column.
  assert (∀ usd, comprehension (convert d1 key) usd = comprehension (convert d2 key) usd)
    as Hc.
  { intros usd. apply comprehension_ext. intros x. unfold convert, dict_get. by rewrite Hd. }
  unfold mbind, M_bind. destruct (get_column df "MC_USD_Billion" s) as [s1 [usd|e]]; [|done].
  unfold lift. by rewrite Hc.
Qed.

(** X2.  [transform] uses the rate file for the rates of GBP, EUR and INR
    and for nothing else: with two rate files that give these three codes
    the same rates (or both lack them), it does the same to every frame. *)
Theorem transform_three_rates w1 w2 s df path rows1 rows2 :
  read_rates w1 path = Ok rows1 ->
  read_rates w2 path = Ok rows2 ->
  to_dict rows1 !! "GBP" = to_dict rows2 !! "GBP" ->
  to_dict rows1 !! "EUR" = to_dict rows2 !! "EUR" ->
  to_dict rows1 !! "INR" = to_dict rows2 !! "INR" ->
  transform w1 df path s = transform w2 df path s.
Proof.
  intros H1 H2 Hg He Hi.
  rewrite (transform_steps _ _ _ _ _ H1), (transform_steps _ _ _ _ _ H2).
  unfold mbind, M_bind.
  rewrite (add_column_ext _ _ _ _ _ _ Hg).
  destruct (add_column (to_dict rows2) df "MC_GBP_Billion" "GBP" _) as [s1 [[]|e]]; [|done].
  rewrite (add_column_ext _ _ _ _ _ _ He).
  destruct (add_column (to_dict rows2) df "MC_EUR_Billion" "EUR" _) as [s2 [[]|e]]; [|done].
  by rewrite (add_column_ext _ _ _ _ _ _ Hi).
Qed.

Lemma transform_three_rates_witness :
  read_rates (quiet (Ok example_page) (Ok example_rates)) csv_path = Ok example_rates
  ∧ read_rates (quiet (Ok example_page) (Ok (("USD", 1%float) :: rev example_rates)))
      csv_path = Ok (("USD", 1%float) :: rev example_rates)
  ∧ transform (quiet (Ok example_page) (Ok example_rates)) 0%nat csv_path
      (holding example_records)
    = transform (quiet (Ok example_page) (Ok (("USD", 1%float) :: rev example_rates)))
        0%nat csv_path (holding example_records).
Proof.
  split; [reflexivity|]. split; [reflexivity|].
  apply (transform_three_rates _ _ _ _ _ example_rates
           (("USD", 1%float) :: rev example_rates));
    vm_compute; reflexivity.
Defined.

(** *** [transform] on other frames *)

Lemma getitem_raise frame key e : getitem frame key = Raise e -> e = KeyError key.
Proof.
  induction frame as [|[k c] frame IH]; simpl; [by intros [= <-]|].
  by destruct (String.eqb k key).
Qed.

(** X3.  On a frame without an MC_USD_Billion column [transform] raises
    [KeyError] for that label once it has read the rate file, and leaves
    every frame as it was. *)
Theorem transform_without_usd w s df path frame rate_rows e :
  frames s !! df = Some frame ->
  getitem frame "MC_USD_Billion" = Raise e ->
  read_rates w path = Ok rate_rows ->
  transform w df path s
  = (State (frames s) (trace s ++ [EvReadCsv path]), Raise (KeyError "MC_USD_Billion")).
Proof.
  intros Hs Hget Hr. rewrite (transform_steps _ _ _ _ _ Hr).
  erewrite bind_raise; [reflexivity|].
  unfold add_column, get_column, mbind, M_bind, load, lift. simpl.
  rewrite Hs, Hget. by rewrite (getitem_raise _ _ _ Hget).
Qed.

Lemma transform_without_usd_witness :
  frames (State [[("Name", [CStr "BankA"])]] []) !! 0%nat = Some [("Name", [CStr "BankA"])]
  ∧ getitem [("Name", [CStr "BankA"])] "MC_USD_Billion" = Raise (KeyError "MC_USD_Billion")
  ∧ read_rates (quiet (Ok example_page) (Ok example_rates)) csv_path = Ok example_rates
  ∧ transform (quiet (Ok example_page) (Ok example_rates)) 0%nat csv_path
      (State [[("Name", [CStr "BankA"])]] [])
    = (State [[("Name", [CStr "BankA"])]] [EvReadCsv csv_path],
       Raise (KeyError "MC_USD_Billion")).
Proof.
  split; [reflexivity|]. split; [reflexivity|]. split; [reflexivity|].
  exact (transform_without_usd (quiet (Ok example_page) (Ok example_rates))
           (State [[("Name", [CStr "BankA"])]] []) 0%nat csv_path
           [("Name", [CStr "BankA"])] example_rates (KeyError "MC_USD_Billion")
           eq_refl eq_refl eq_refl).
Defined.

(** The run of [transform] on a frame that holds records and perhaps derived
    columns already, when the three rates are there. *)
Lemma transform_run w s df path frame recs rate_rows g e i :
  frames s !! df = Some frame ->
  frame = frame_of_records recs ∨ (∃ g0 e0 i0, frame = enriched g0 e0 i0 recs) ->
  read_rates w path = Ok rate_rows ->
  to_dict rate_rows !! "GBP" = Some g ->
  to_dict rate_rows !! "EUR" = Some e ->
  to_dict rate_rows !! "INR" = Some i ->
  transform w df path s
  = (State (<[df := enriched g e i recs]> (frames s)) (trace s ++ [EvReadCsv path]), Ok df).
Proof.
  intros Hs Hframe Hr Hg He Hi.
  pose proof (lookup_lt_Some _ _ _ Hs) as Hlt.
  rewrite (transform_steps _ _ _ _ _ Hr).
  destruct Hframe as [->|(g0 & e0 & i0 & ->)].
  all: erewrite bind_ok; cycle 1;
    [eapply add_column_frame; [exact Hs | reflexivity | new_column | exact Hg]|].
  all: erewrite bind_ok; cycle 1;
    [eapply add_column_frame;
       [by apply list_lookup_insert_eq | reflexivity | new_column | exact He]|].
  all: erewrite bind_ok; cycle 1;
    [eapply add_column_frame;
       [apply list_lookup_insert_eq; simpl; by rewrite length_insert
       | reflexivity | new_column | exact Hi]|].
  all: simpl; by rewrite !list_insert_insert_eq.
Qed.

(** X4.  Running [transform] again on a frame it has already enriched adds
    no column: the three derived columns are computed afresh from
    MC_USD_Billion at the rates of the new rate file and replace the old
    ones where they stand. *)
Theorem transform_again w s df path recs rate_rows g0 e0 i0 g e i :
  frames s !! df = Some (enriched g0 e0 i0 recs) ->
  read_rates w path = Ok rate_rows ->
  to_dict rate_rows !! "GBP" = Some g ->
  to_dict rate_rows !! "EUR" = Some e ->
  to_dict rate_rows !! "INR" = Some i ->
  transform w df path s
  = (State (<[df := enriched g e i recs]> (frames s)) (trace s ++ [EvReadCsv path]), Ok df)
  ∧ labels (enriched g e i recs) = labels (enriched g0 e0 i0 recs).
Proof.
  intros Hs Hr Hg He Hi. split; [|done].
  eapply transform_run; eauto 10.
Qed.

Lemma transform_again_witness :
  frames (State [enriched 1 1 1 example_records] []) !! 0%nat
  = Some (enriched 1 1 1 example_records)
  ∧ read_rates (quiet (Ok example_page) (Ok example_rates)) csv_path = Ok example_rates
  ∧ to_dict example_rates !! "GBP" = Some 0.8%float
  ∧ to_dict example_rates !! "EUR" = Some 0.9%float
  ∧ to_dict example_rates !! "INR" = Some 80%float
  ∧ transform (quiet (Ok example_page) (Ok example_rates)) 0%nat csv_path
      (State [enriched 1 1 1 example_records] [])
    = (State [enriched 0.8 0.9 80 example_records] [EvReadCsv csv_path], Ok 0%nat).
Proof.
  assert (to_dict example_rates !! "GBP" = Some 0.8%float) as Hg
      by (vm_compute; reflexivity).
  assert (to_dict example_rates !! "EUR" = Some 0.9%float) as He
      by (vm_compute; reflexivity).
  assert (to_dict example_rates !! "INR" = Some 80%float) as Hi
      by (vm_compute; reflexivity).
  split; [reflexivity|]. split; [reflexivity|].
  split; [exact Hg|]. split; [exact He|]. split; [exact Hi|].
  exact (proj1 (transform_again (quiet (Ok example_page) (Ok example_rates))
                  (State [enriched 1 1 1 example_records] []) 0%nat csv_path
                  example_records example_rates 1 1 1 0.8 0.9 80
                  eq_refl eq_refl Hg He Hi)).
Defined.

(** X5.  On the frame of at least one record, once the rate file is read,
    [transform] returns exactly when the rate dictionary has the three keys
    GBP, EUR and INR; otherwise it raises [KeyError]. *)
Theorem transform_returns_iff w s df path r recs rate_rows :
  frames s !! df = Some (frame_of_records (r :: recs)) ->
  read_rates w path = Ok rate_rows ->
  ((transform w df path s).2 = Ok df <-> has_rates (to_dict rate_rows) = true)
  ∧ (has_rates (to_dict rate_rows) = false ->
     ∃ key, (transform w df path s).2 = Raise (KeyError key)
            ∧ to_dict rate_rows !! key = None).
Proof.
  intros Hs Hr. pose proof (lookup_lt_Some _ _ _ Hs) as Hlt.
  unfold has_rates.
  destruct (to_dict rate_rows !! "GBP") as [g|] eqn:Hg.
  - destruct (to_dict rate_rows !! "EUR") as [e|] eqn:He.
    + destruct (to_dict rate_rows !! "INR") as [i|] eqn:Hi.
      * rewrite (transform_run _ _ _ _ _ (r :: recs) _ g e i Hs (or_introl eq_refl)
                   Hr Hg He Hi).
        split; [|done]. split; [intros _|done].
        rewrite !bool_decide_eq_true_2 by eauto. done.
      * assert ((transform w df path s).2 = Raise (KeyError "INR")) as Hrun.
        { rewrite (transform_steps _ _ _ _ _ Hr).
          erewrite bind_ok; cycle 1.
          { eapply add_column_frame; [exact Hs | reflexivity | new_column | exact Hg]. }
          erewrite bind_ok; cycle 1.
          { eapply add_column_frame;
              [by apply list_lookup_insert_eq | reflexivity | new_column | exact He]. }
          erewrite bind_raise; [reflexivity|].
          eapply add_column_missing;
            [apply list_lookup_insert_eq; simpl; by rewrite length_insert
            | reflexivity | exact Hi]. }
        rewrite Hrun. split; [|by eauto]. split; [done|].
        rewrite (bool_decide_eq_false_2 (is_Some None)) by (by intros [? ?]).
        by rewrite andb_false_r.
    + assert ((transform w df path s).2 = Raise (KeyError "EUR")) as Hrun.
      { rewrite (transform_steps _ _ _ _ _ Hr).
        erewrite bind_ok; cycle 1.
        { eapply add_column_frame; [exact Hs | reflexivity | new_column | exact Hg]. }
        erewrite bind_raise; [reflexivity|].
        eapply add_column_missing;
          [by apply list_lookup_insert_eq | reflexivity | exact He]. }
      rewrite Hrun. split; [|by eauto]. split; [done|].
      rewrite (bool_decide_eq_false_2 (is_Some None)) by (by intros [? ?]).
      by rewrite andb_false_r.
  - assert ((transform w df path s).2 = Raise (KeyError "GBP")) as Hrun.
    { rewrite (transform_steps _ _ _ _ _ Hr).
      erewrite bind_raise; [reflexivity|].
      eapply add_column_missing; [exact Hs | reflexivity | exact Hg]. }
    rewrite Hrun. split; [|by eauto]. split; [done|].
    by rewrite (bool_decide_eq_false_2 (is_Some None)) by (by intros [? ?]).
Qed.

Lemma transform_returns_iff_witness :
  frames (holding example_records) !! 0%nat = Some (frame_of_records example_records)
  ∧ read_rates (quiet (Ok example_page) (Ok repeated_gbp)) csv_path = Ok repeated_gbp
  ∧ has_rates (to_dict repeated_gbp) = false
  ∧ (transform (quiet (Ok example_page) (Ok repeated_gbp)) 0%nat csv_path
       (holding example_records)).2 ≠ Ok 0%nat.
Proof.
  split; [reflexivity|]. split; [reflexivity|].
  assert (has_rates (to_dict repeated_gbp) = false) as Hno by (vm_compute; reflexivity).
  split; [exact Hno|].
  intros Hret.
  apply (proj1 (transform_returns_iff (quiet (Ok example_page) (Ok repeated_gbp))
                  (holding example_records) 0%nat csv_path bank_a [bank_b] repeated_gbp
                  eq_refl eq_refl)) in Hret.
  congruence.
Defined.

(** *** What [extract] returns *)

(** X6.  Whatever [table_attribs] is, a call of [extract] that returns
    returns a frame it has just created, with the two columns Name and
    MC_USD_Billion of one length and no other; another [table_attribs]
    gives the same result and the same frame. *)
Theorem extract_returns_two_columns w s u attribs l :
  (extract w u attribs s).2 = Ok l ->
  l = S (length (frames s))
  ∧ (∃ names caps,
        frames (extract w u attribs s).1 !! l
        = Some [("Name", map CStr names); ("MC_USD_Billion", map CFloat caps)]
        ∧ length names = length caps)
  ∧ ∀ attribs',
      (extract w u attribs' s).2 = Ok l
      ∧ frames (extract w u attribs' s).1 !! l = frames (extract w u attribs s).1 !! l.
Proof.
  destruct (http_get w u) as [data|e0] eqn:Hget.
  - assert (∀ a, extract w u a s = _) as Hrun
        by (intros a; exact (extract_steps w s u a data Hget)).
    rewrite (Hrun attribs). unfold table_rows. simpl.
    destruct (select "table" "tbody" data) as [|tbody others] eqn:Hsel; [done|].
    destruct (existsb bad_row (tail (find_all "tr" tbody))) eqn:Hbad.
    { by rewrite (scan_rows_raise _ _ _ Hbad). }
    rewrite (scan_rows_ok _ _ _ Hbad). simpl. intros [= <-].
    rewrite length_app, Nat.add_1_r. split; [done|].
    assert (∀ (a : list string) (x y : DataFrame),
              ((frames s ++ [x]) ++ [y]) !! S (length (frames s)) = Some y) as Hlook.
    { intros a x y. rewrite <- app_assoc. rewrite lookup_app_r by lia.
      by replace (S (length (frames s)) - length (frames s))%nat with 1%nat by lia. }
    split.
    + eexists _, _. split; [apply (Hlook attribs)|]. by rewrite !length_map.
    + intros attribs'. rewrite (Hrun attribs'). unfold table_rows. simpl.
      rewrite Hsel, (scan_rows_ok _ _ _ Hbad). simpl.
      rewrite length_app, Nat.add_1_r. split; [done|].
      by rewrite (Hlook attribs), (Hlook attribs').
  - unfold extract, input. rewrite Hget. done.
Qed.

Lemma extract_returns_two_columns_witness :
  (extract (quiet (Ok example_page) (Ok example_rates)) url table_attribs start).2
  = Ok 1%nat
  ∧ (extract (quiet (Ok example_page) (Ok example_rates)) url [] start).2 = Ok 1%nat.
Proof.
  assert ((extract (quiet (Ok example_page) (Ok example_rates)) url table_attribs start).2
          = Ok 1%nat) as H by (vm_compute; reflexivity).
  split; [exact H|].
  exact (proj1 (proj2 (proj2 (extract_returns_two_columns _ _ _ _ _ H)) [])).
Defined.

(** *** The order of the script *)

Lemma appends_bind {A B} (m : M A) (k : A -> M B) s evs1 evs2 :
  appends m s evs1 ->
  (∀ s' v, m s = (s', Ok v) -> appends (k v) s' evs2) ->
  appends (m ≫= k) s (evs1 ++ evs2).
Proof.
  unfold appends, mbind, M_bind. intros Hm Hk.
  destruct (m s) as [s1 [v|e]].
  - specialize (Hk s1 v eq_refl). destruct (k v s1) as [s2 [v2|e2]].
    + by rewrite Hk, Hm, app_assoc.
    + destruct Hk as (evs' & Hpre & Ht). exists (evs1 ++ evs'). split.
      * by apply prefix_app.
      * by rewrite Ht, Hm, app_assoc.
  - destruct Hm as (evs' & Hpre & Ht). exists evs'. split; [|done].
    by apply prefix_app_r.
Qed.

Lemma appends_silent {A} (m : M A) s :
  trace (m s).1 = trace s -> appends m s [].
Proof.
  unfold appends. destruct (m s) as [s1 [v|e]]; simpl; intros ->.
  - by rewrite app_nil_r.
  - exists []. by rewrite app_nil_r.
Qed.

Lemma appends_emit ev s : appends (emit ev) s [shape ev].
Proof. unfold appends. simpl. by rewrite map_app. Qed.

Lemma appends_effect ev failure s : appends (effect ev failure) s [shape ev].
Proof.
  destruct failure as [e|]; [|apply appends_emit].
  unfold appends. simpl. exists []. split; [apply prefix_nil|by rewrite app_nil_r].
Qed.

Lemma appends_input {A} ev (answer : result A) s : appends (input ev answer) s [shape ev].
Proof.
  destruct answer as [v|e].
  - unfold appends. simpl. by rewrite map_app.
  - unfold appends. simpl. exists []. split; [apply prefix_nil|by rewrite app_nil_r].
Qed.

Lemma add_column_trace d df label key s : trace (add_column d df label key s).1 = trace s.
Proof.
  unfold add_column, get_column, set_column, mbind, M_bind, load, lift, store.
  destruct (frames s !! df) as [frame|] eqn:Hs; [|done].
  destruct (getitem frame "MC_USD_Billion") as [usd|]; [|done].
  destruct (comprehension (convert d key) usd) as [col|]; [|done].
  rewrite Hs. by destruct (setitem frame label col).
Qed.

Lemma appends_extract w u attribs s : appends (extract w u attribs) s [EvGet u].
Proof.
  unfold extract. apply (appends_bind _ _ _ [EvGet u] []); [apply appends_input|].
  intros s1 data _. apply appends_silent. unfold mbind, M_bind, alloc, lift. simpl.
  destruct (table_rows data) as [rows|e]; [|done].
  by destruct (scan_rows rows [] []) as [[names caps]|e].
Qed.

Lemma appends_transform w df path s : appends (transform w df path) s [EvReadCsv path].
Proof.
  unfold transform. apply (appends_bind _ _ _ [EvReadCsv path] []); [apply appends_input|].
  intros s1 rate_rows _. apply appends_silent. unfold mbind, M_bind.
  pose proof (add_column_trace (to_dict rate_rows) df "MC_GBP_Billion" "GBP" s1) as H1.
  destruct (add_column _ df "MC_GBP_Billion" "GBP" s1) as [s2 [[]|e]]; [|done].
  pose proof (add_column_trace (to_dict rate_rows) df "MC_EUR_Billion" "EUR" s2) as H2.
  destruct (add_column _ df "MC_EUR_Billion" "EUR" s2) as [s3 [[]|e]];
    [|simpl in *; congruence].
  pose proof (add_column_trace (to_dict rate_rows) df "MC_INR_Billion" "INR" s3) as H3.
  destruct (add_column _ df "MC_INR_Billion" "INR" s3) as [s4 [[]|e]];
    simpl in *; congruence.
Qed.

Lemma appends_load_to_csv w df path s :
  appends (load_to_csv w df path) s [EvWriteCsv path EmptyString].
Proof.
  unfold load_to_csv. apply (appends_bind _ _ _ [] [_]); [by apply appends_silent|].
  intros s1 d _. apply (appends_effect (EvWriteCsv path (to_csv d))).
Qed.

Lemma appends_load_to_db w df conn table s :
  appends (load_to_db w df conn table) s [EvToSql conn table []].
Proof.
  unfold load_to_db. apply (appends_bind _ _ _ [] [_]); [by apply appends_silent|].
  intros s1 d _. apply (appends_effect (EvToSql conn table d)).
Qed.

Lemma appends_run_query w query conn s :
  appends (run_query w query conn) s [EvPrint query; EvReadSql conn query; EvPrintFrame []].
Proof.
  unfold run_query. apply (appends_bind _ _ _ [_] [_; _]); [apply appends_emit|].
  intros s1 [] _. apply (appends_bind _ _ _ [_] [_]); [apply appends_input|].
  intros s2 answer _. apply (appends_emit (EvPrintFrame answer)).
Qed.

Lemma appends_connect w db s : appends (connect w db) s [EvConnect db].
Proof.
  unfold connect. apply (appends_bind _ _ _ [_] []); [apply appends_effect|].
  intros s1 [] _. by apply appends_silent.
Qed.

Lemma connect_returns w db s s' conn :
  connect w db s = (s', Ok conn) -> conn = Connection db.
Proof.
  unfold connect, effect, mbind, M_bind. destruct (db_connect w db); [done|].
  simpl. by intros [= _ <-].
Qed.

Lemma main_appends w : appends (main w) start script_shape.
Proof.
  unfold main. generalize start. intros s.
  apply (appends_bind _ _ _ [_] _); [apply (appends_effect (EvLog _))|]. intros ? ? _.
  apply (appends_bind _ _ _ [_] _); [apply appends_extract|]. intros ? df0 _.
  apply (appends_bind _ _ _ [_] _); [apply (appends_effect (EvLog _))|]. intros ? ? _.
  apply (appends_bind _ _ _ [_] _); [apply appends_transform|]. intros ? df _.
  apply (appends_bind _ _ _ [_] _); [apply (appends_effect (EvLog _))|]. intros ? ? _.
  apply (appends_bind _ _ _ [_] _); [apply appends_load_to_csv|]. intros ? ? _.
  apply (appends_bind _ _ _ [_] _); [apply (appends_effect (EvLog _))|]. intros ? ? _.
  apply (appends_bind _ _ _ [_] _); [apply appends_connect|].
  intros ? conn ->%connect_returns.
  apply (appends_bind _ _ _ [_] _); [apply (appends_effect (EvLog _))|]. intros ? ? _.
  apply (appends_bind _ _ _ [_] _); [apply appends_load_to_db|]. intros ? ? _.
  apply (appends_bind _ _ _ [_] _); [apply (appends_effect (EvLog _))|]. intros ? ? _.
  apply (appends_bind _ _ _ [_; _; _] _); [apply appends_run_query|]. intros ? ? _.
  apply (appends_bind _ _ _ [_] [_]); [apply (appends_effect (EvLog _))|]. intros ? ? _.
  apply (appends_effect (EvClose _)).
Qed.

(** X7.  Every run goes through the script in order and stops at the first
    failure: leaving aside the data they carry, the effects of a run are the
    first effects of the complete script (log, fetch, log, read the rates,
    log, write the CSV file, log, connect, log, write the table, log, print
    and run the query, print its result, log, close), and all of them when
    the run returns. *)
Theorem main_trace_prefix w :
  map shape (trace (main w start).1) `prefix_of` script_shape
  ∧ ((main w start).2 = Ok tt -> map shape (trace (main w start).1) = script_shape).
Proof.
  pose proof (main_appends w) as H. unfold appends in H.
  destruct (main w start) as [s' [[]|e]]; simpl in *.
  - rewrite H. split; [done|]. by intros _.
  - destruct H as (evs' & Hpre & ->). split; [exact Hpre|done].
Qed.

Lemma main_trace_prefix_witness :
  (main (quiet (Ok example_page) (Ok example_rates)) start).2 = Ok tt
  ∧ map shape (trace (main (quiet (Ok example_page) (Ok example_rates)) start).1)
    = script_shape.
Proof.
  assert ((main (quiet (Ok example_page) (Ok example_rates)) start).2 = Ok tt) as H
      by (vm_compute; reflexivity).
  split; [exact H|].
  exact (proj2 (main_trace_prefix (quiet (Ok example_page) (Ok example_rates))) H).
Defined.

Lemma logs_shape t : logs (map shape t) = logs t.
Proof.
  induction t as [|ev t IH]; [done|].
  change (logs (map shape (ev :: t))) with (logs ([shape ev] ++ map shape t)).
  change (logs (ev :: t)) with (logs ([ev] ++ t)).
  unfold logs in *. rewrite !omap_app, IH. by destruct ev.
Qed.

Lemma logs_prefix t1 t2 : t1 `prefix_of` t2 -> logs t1 `prefix_of` logs t2.
Proof. intros [k ->]. unfold logs. rewrite omap_app. by apply prefix_app_r. Qed.

(** X8.  The log shows the progress of a run up to its last completed
    stage: the messages a run has logged are the first of the seven messages
    of the script, in order, and all seven when the run returns. *)
Theorem main_logs_prefix w :
  logs (trace (main w start).1) `prefix_of` messages
  ∧ ((main w start).2 = Ok tt -> logs (trace (main w start).1) = messages).
Proof.
  pose proof (main_appends w) as H. unfold appends in H.
  assert (logs script_shape = messages) as Hm by (vm_compute; reflexivity).
  destruct (main w start) as [s' [[]|e]]; cbn [fst snd].
  - change (map shape (trace start) ++ script_shape) with script_shape in H.
    rewrite <- logs_shape, H, Hm. split; [done|]. by intros _.
  - destruct H as (evs' & Hpre & Ht). split; [|done].
    change (map shape (trace start) ++ evs') with evs' in Ht.
    rewrite <- logs_shape, Ht, <- Hm. by apply logs_prefix.
Qed.

Lemma main_logs_prefix_witness :
  (main (quiet (Ok example_page) (Ok example_rates)) start).2 = Ok tt
  ∧ logs (trace (main (quiet (Ok example_page) (Ok example_rates)) start).1) = messages.
Proof.
  assert ((main (quiet (Ok example_page) (Ok example_rates)) start).2 = Ok tt) as H
      by (vm_compute; reflexivity).
  split; [exact H|].
  exact (proj2 (main_logs_prefix (quiet (Ok example_page) (Ok example_rates))) H).
Defined.

(** *** A run that completes *)

Lemma log_progress_ok w m s :
  log_append w m = None ->
  log_progress w m s = (State (frames s) (trace s ++ [EvLog m]), Ok tt).
Proof. intros H. unfold log_progress, effect. by rewrite H. Qed.

(** The script from the logging of the extraction on, once [extract] has
    left the frame [f1] and [transform] has turned it into [d]. *)
Lemma main_run_with w f1 d answer :
  extract w url table_attribs
    (State [] [EvLog "Preliminaries complete. Initiating ETL process"])
  = (State [empty_frame table_attribs; f1]
           [EvLog "Preliminaries complete. Initiating ETL process"; EvGet url],
     Ok 1%nat) ->
  transform w 1%nat csv_path
    (State [empty_frame table_attribs; f1]
           [EvLog "Preliminaries complete. Initiating ETL process"; EvGet url;
            EvLog "Data extraction complete. Initiating Transformation process"])
  = (State [empty_frame table_attribs; d]
           [EvLog "Preliminaries complete. Initiating ETL process"; EvGet url;
            EvLog "Data extraction complete. Initiating Transformation process";
            EvReadCsv csv_path],
     Ok 1%nat) ->
  db_read_sql w (Connection "Banks.db") query_statement = Ok answer ->
  writes_succeed w (to_csv d) d ->
  main w start
  = (State [empty_frame table_attribs; d] (script_trace (to_csv d) d answer), Ok tt).
Proof.
  intros Hext Htr Hq (Hlog & Hfile & Hconn & Hsql & Hclose).
  unfold main.
  rewrite (bind_ok _ _ _ _ _ (log_progress_ok w _ _ (Hlog _))). simpl.
  rewrite (bind_ok _ _ _ _ _ Hext).
  rewrite (bind_ok _ _ _ _ _ (log_progress_ok w _ _ (Hlog _))). simpl.
  rewrite (bind_ok _ _ _ _ _ Htr).
  rewrite (bind_ok _ _ _ _ _ (log_progress_ok w _ _ (Hlog _))). simpl.
  unfold load_to_csv, connect, load_to_db, run_query, close, log_progress.
  unfold mbind, M_bind, load, input, effect, emit, mret, M_ret. simpl.
  rewrite Hfile. simpl. rewrite !Hlog. simpl. rewrite Hconn. simpl.
  rewrite Hsql. simpl. rewrite Hq. simpl. by rewrite Hclose.
Qed.

(** X9.  When the page has a table body none of whose rows (after the
    first) is a bad row, the rate file has the three rates, the query is
    answered and every write succeeds, the run returns: it has written the
    CSV text of the enriched records of the three-cell rows to the output
    file and the same frame to the table, in the order of the script. *)
Theorem main_succeeds w data tbody others rate_rows g e i answer :
  http_get w url = Ok data ->
  select "table" "tbody" data = tbody :: others ->
  existsb bad_row (tail (find_all "tr" tbody)) = false ->
  read_rates w csv_path = Ok rate_rows ->
  to_dict rate_rows !! "GBP" = Some g ->
  to_dict rate_rows !! "EUR" = Some e ->
  to_dict rate_rows !! "INR" = Some i ->
  db_read_sql w (Connection "Banks.db") query_statement = Ok answer ->
  writes_succeed w (to_csv (enriched g e i (records_of_rows (tail (find_all "tr" tbody)))))
    (enriched g e i (records_of_rows (tail (find_all "tr" tbody)))) ->
  main w start
  = (State [empty_frame table_attribs;
            enriched g e i (records_of_rows (tail (find_all "tr" tbody)))]
       (script_trace
          (to_csv (enriched g e i (records_of_rows (tail (find_all "tr" tbody)))))
          (enriched g e i (records_of_rows (tail (find_all "tr" tbody)))) answer),
     Ok tt).
Proof.
  intros Hget Hsel Hok Hr Hg He Hi Hq Hw.
  apply (main_run_with w (frame_of_records (records_of_rows (tail (find_all "tr" tbody)))));
    [| |exact Hq|exact Hw].
  - rewrite (extract_steps _ _ _ _ _ Hget). unfold table_rows.
    rewrite Hsel, (scan_rows_ok _ _ _ Hok). simpl.
    unfold frame_of_records, name_cell, usd_cell, empty_frame. by rewrite !map_map.
  - match goal with
    | |- transform w ?df ?p ?s = _ =>
        by rewrite (transform_run w s df p (frame_of_records _) _ rate_rows g e i
                      eq_refl (or_introl eq_refl) Hr Hg He Hi)
    end.
Qed.

Lemma main_succeeds_witness :
  main (quiet (Ok example_page) (Ok example_rates)) start
  = (State [empty_frame table_attribs; enriched 0.8 0.9 80 example_records]
       (script_trace (PyStr.concat (map (fun l => l +:+ lineterminator) example_csv_lines))
          (enriched 0.8 0.9 80 example_records) []),
     Ok tt).
Proof.
  assert (select "table" "tbody" example_page = [example_tbody]) as Hsel
      by (vm_compute; reflexivity).
  assert (existsb bad_row (tail (find_all "tr" example_tbody)) = false) as Hok
      by (vm_compute; reflexivity).
  assert (to_dict example_rates !! "GBP" = Some 0.8%float) as Hg
      by (vm_compute; reflexivity).
  assert (to_dict example_rates !! "EUR" = Some 0.9%float) as He
      by (vm_compute; reflexivity).
  assert (to_dict example_rates !! "INR" = Some 80%float) as Hi
      by (vm_compute; reflexivity).
  rewrite (main_succeeds (quiet (Ok example_page) (Ok example_rates)) example_page
             example_tbody [] example_rates 0.8 0.9 80 [] eq_refl Hsel Hok eq_refl
             Hg He Hi eq_refl (conj (fun _ => eq_refl)
                                 (conj eq_refl (conj eq_refl (conj eq_refl eq_refl))))).
  vm_compute. reflexivity.
Defined.



(** *** Quoting in the CSV file *)

Lemma ascii_eqb_eq a b : ascii_eqb a b = true <-> a = b.
Proof.
  unfold ascii_eqb, code. rewrite Z.eqb_eq. split; [|by intros ->].
  intros H%N2Z.inj. by rewrite <- (ascii_N_embedding a), H, ascii_N_embedding.
Qed.

Lemma double_quotes_inj s1 s2 :
  double_quotes s1 +:+ String quotechar EmptyString
  = double_quotes s2 +:+ String quotechar EmptyString ->
  s1 = s2.
Proof.
  revert s2. induction s1 as [|c1 s1 IH]; intros [|c2 s2]; simpl; [done| | |].
  - destruct (ascii_eqb c2 quotechar) eqn:H2; simpl; intros H; simplify_eq;
      try (by vm_compute in H2).
  - destruct (ascii_eqb c1 quotechar) eqn:H1; simpl; intros H; simplify_eq;
      try (by vm_compute in H1).
  - destruct (ascii_eqb c1 quotechar) eqn:H1, (ascii_eqb c2 quotechar) eqn:H2;
      simpl; intros H; simplify_eq; try congruence; f_equal; by apply IH.
Qed.

(** X11.  Quoting loses nothing: a field without a comma, a quote or a
    newline is written as it is, and two fields that are written alike are
    the same field. *)
Theorem csv_field_inj s1 s2 :
  (contains special s1 = false -> csv_field s1 = s1)
  ∧ (csv_field s1 = csv_field s2 -> s1 = s2).
Proof.
  split; [by unfold csv_field; intros ->|].
  assert (∀ a b, contains special a = false -> quoted b = a -> False) as Hmix.
  { intros a b Ha <-.
    change (contains special (quoted b))
      with (special quotechar
            || contains special (double_quotes b +:+ String quotechar EmptyString)) in Ha.
    assert (special quotechar = true) as Hq by (vm_compute; reflexivity).
    by rewrite Hq in Ha. }
  unfold csv_field.
  destruct (contains special s1) eqn:H1, (contains special s2) eqn:H2; [| | |done].
  - unfold quoted. intros [= H]. by apply double_quotes_inj.
  - intros H. by destruct (Hmix s2 s1 H2 H).
  - intros H. symmetry in H. by destruct (Hmix s1 s2 H1 H).
Qed.

Lemma csv_field_inj_witness :
  contains special "Bank of America" = false
  ∧ csv_field "Bank of America" = "Bank of America".
Proof.
  assert (contains special "Bank of America" = false) as H by (vm_compute; reflexivity).
  split; [exact H|].
  exact (proj1 (csv_field_inj "Bank of America" "Bank of America") H).
Defined.

(** *** A run that fails *)

(** X12.  When the page cannot be fetched the run ends with the exception
    of the fetch, after its first log message and nothing else: no frame is
    created, no file is read or written, no connection is opened. *)
Theorem main_fetch_failure w e :
  http_get w url = Raise e ->
  log_append w "Preliminaries complete. Initiating ETL process" = None ->
  main w start
  = (State [] [EvLog "Preliminaries complete. Initiating ETL process"], Raise e).
Proof.
  intros Hget Hlog. unfold main.
  rewrite (bind_ok _ _ _ _ _ (log_progress_ok w _ _ Hlog)). simpl.
  erewrite bind_raise; [reflexivity|].
  unfold extract, input. by rewrite Hget.
Qed.

Lemma main_fetch_failure_witness :
  main (quiet (Raise RequestException) (Ok example_rates)) start
  = (State [] [EvLog "Preliminaries complete. Initiating ETL process"],
     Raise RequestException).
Proof.
  exact (main_fetch_failure (quiet (Raise RequestException) (Ok example_rates))
           RequestException eq_refl eq_refl).
Defined.

(** The run of [extract] on a page whose first table body has no bad row. *)
Lemma extract_run w s u attribs data tbody others :
  http_get w u = Ok data ->
  select "table" "tbody" data = tbody :: others ->
  existsb bad_row (tail (find_all "tr" tbody)) = false ->
  extract w u attribs s
  = (State (frames s ++ [empty_frame attribs;
                         frame_of_records (records_of_rows (tail (find_all "tr" tbody)))])
           (trace s ++ [EvGet u]),
     Ok (S (length (frames s)))).
Proof.
  intros Hget Hsel Hok. rewrite (extract_steps _ _ _ _ _ Hget). unfold table_rows.
  rewrite Hsel, (scan_rows_ok _ _ _ Hok). simpl.
  rewrite <- app_assoc, length_app, Nat.add_1_r. simpl.
  unfold frame_of_records, name_cell, usd_cell, empty_frame. by rewrite !map_map.
Qed.

(** [transform] on the frame of at least one record when a rate is missing. *)
Lemma transform_missing_key w s df path r recs rate_rows :
  frames s !! df = Some (frame_of_records (r :: recs)) ->
  read_rates w path = Ok rate_rows ->
  has_rates (to_dict rate_rows) = false ->
  ∃ key fs,
    to_dict rate_rows !! key = None
    ∧ transform w df path s = (State fs (trace s ++ [EvReadCsv path]), Raise (KeyError key)).
Proof.
  intros Hs Hr Hno. pose proof (lookup_lt_Some _ _ _ Hs) as Hlt.
  rewrite (transform_steps _ _ _ _ _ Hr). unfold has_rates in Hno.
  destruct (to_dict rate_rows !! "GBP") as [g|] eqn:Hg.
  - erewrite bind_ok; cycle 1.
    { eapply add_column_frame; [exact Hs | reflexivity | new_column | exact Hg]. }
    destruct (to_dict rate_rows !! "EUR") as [e|] eqn:He.
    + erewrite bind_ok; cycle 1.
      { eapply add_column_frame;
          [by apply list_lookup_insert_eq | reflexivity | new_column | exact He]. }
      destruct (to_dict rate_rows !! "INR") as [i|] eqn:Hi.
      { rewrite !bool_decide_eq_true_2 in Hno by eauto. done. }
      exists "INR". eexists. split; [done|].
      erewrite bind_raise; [reflexivity|].
      eapply add_column_missing;
        [apply list_lookup_insert_eq; simpl; by rewrite length_insert
        | reflexivity | exact Hi].
    + exists "EUR". eexists. split; [done|].
      erewrite bind_raise; [reflexivity|].
      eapply add_column_missing;
        [by apply list_lookup_insert_eq | reflexivity | exact He].
  - exists "GBP". eexists. split; [done|].
    erewrite bind_raise; [reflexivity|].
    eapply add_column_missing; [exact Hs | reflexivity | exact Hg].
Qed.

(** X13.  When the page yields at least one record and the rate file lacks
    one of the three rates, the run ends with [KeyError] for a missing code
    right after it has read the rate file: it has written no CSV file and
    opened no connection. *)
Theorem main_missing_rate w data tbody others rate_rows :
  http_get w url = Ok data ->
  select "table" "tbody" data = tbody :: others ->
  existsb bad_row (tail (find_all "tr" tbody)) = false ->
  records_of_rows (tail (find_all "tr" tbody)) ≠ [] ->
  read_rates w csv_path = Ok rate_rows ->
  has_rates (to_dict rate_rows) = false ->
  (∀ m, log_append w m = None) ->
  ∃ key,
    to_dict rate_rows !! key = None
    ∧ (main w start).2 = Raise (KeyError key)
    ∧ trace (main w start).1
      = [EvLog "Preliminaries complete. Initiating ETL process";
         EvGet url;
         EvLog "Data extraction complete. Initiating Transformation process";
         EvReadCsv csv_path].
Proof.
  intros Hget Hsel Hok Hrecs Hr Hno Hlog.
  destruct (records_of_rows (tail (find_all "tr" tbody))) as [|r recs] eqn:Hrows; [done|].
  assert (∃ key fs,
            to_dict rate_rows !! key = None
            ∧ main w start
              = (State fs
                   [EvLog "Preliminaries complete. Initiating ETL process";
                    EvGet url;
                    EvLog "Data extraction complete. Initiating Transformation process";
                    EvReadCsv csv_path],
                 Raise (KeyError key))) as (key & fs & Hkey & Hrun).
  { unfold main.
    rewrite (bind_ok _ _ _ _ _ (log_progress_ok w _ _ (Hlog _))).
    rewrite (bind_ok _ _ _ _ _ (extract_run _ _ _ _ _ _ _ Hget Hsel Hok)), Hrows.
    rewrite (bind_ok _ _ _ _ _ (log_progress_ok w _ _ (Hlog _))).
    match goal with
    | |- context [(transform w ?df ?p ≫= _) ?s] =>
        destruct (transform_missing_key w s df p r recs rate_rows eq_refl Hr Hno)
          as (key & fs & Hkey & Hrun)
    end.
    exists key, fs. split; [exact Hkey|].
    by rewrite (bind_raise _ _ _ _ _ Hrun). }
  exists key. by rewrite Hrun.
Qed.

Lemma main_missing_rate_witness :
  ∃ key,
    to_dict only_gbp !! key = None
    ∧ (main (quiet (Ok example_page) (Ok only_gbp)) start).2 = Raise (KeyError key)
    ∧ trace (main (quiet (Ok example_page) (Ok only_gbp)) start).1
      = [EvLog "Preliminaries complete. Initiating ETL process";
         EvGet url;
         EvLog "Data extraction complete. Initiating Transformation process";
         EvReadCsv csv_path].
Proof.
  apply (main_missing_rate (quiet (Ok example_page) (Ok only_gbp)) example_page
           example_tbody [] only_gbp);
    try (vm_compute; reflexivity); done.
Defined.

(** *** The text of a cell *)

Lemma lstrip_leading s : leading_space (lstrip s) = false.
Proof.
  induction s as [|c s IH]; [done|]. simpl.
  destruct (isspace c) eqn:Hc; [done|]. simpl. exact Hc.
Qed.

Lemma rstrip_trailing s : trailing_space (rstrip s) = false.
Proof.
  induction s as [|c s IH]; [done|]. simpl.
  destruct (rstrip s) as [|c' r].
  - destruct (isspace c) eqn:Hc; [done|]. simpl. exact Hc.
  - exact IH.
Qed.

Lemma rstrip_leading s : leading_space s = false -> leading_space (rstrip s) = false.
Proof.
  destruct s as [|c s]; [done|]. simpl. intros Hc.
  destruct (rstrip s); [by rewrite Hc|done].
Qed.

Lemma trailing_space_app a b :
  trailing_space (a +:+ b)
  = match b with EmptyString => trailing_space a | _ => trailing_space b end.
Proof.
  induction a as [|c a IH]; [by destruct b|].
  simpl. rewrite IH. destruct a as [|c' a]; simpl; by destruct b.
Qed.

Lemma concat_trimmed (pieces : list string) :
  Forall (fun p => is_empty p = false ∧ leading_space p = false ∧ trailing_space p = false)
    pieces ->
  leading_space (PyStr.concat pieces) = false ∧ trailing_space (PyStr.concat pieces) = false.
Proof.
  induction 1 as [|p ps (Hp & Hl & Ht) Hps [IHl IHt]]; [done|].
  simpl. split.
  - by destruct p.
  - rewrite trailing_space_app. by destruct (PyStr.concat ps).
Qed.

(** X14.  The text [extract] takes from a cell is trimmed: whatever the
    cell holds, its text neither starts nor ends with white space, so this
    holds for every extracted name. *)
Theorem get_text_trimmed (n : node) :
  leading_space (get_text n) = false ∧ trailing_space (get_text n) = false.
Proof.
  unfold get_text. apply concat_trimmed.
  induction (all_strings n) as [|s l IH]; [constructor|].
  simpl. destruct (is_empty (strip s)) eqn:He; simpl; [exact IH|].
  constructor; [|exact IH]. split; [exact He|]. unfold strip. split.
  - apply rstrip_leading, lstrip_leading.
  - apply rstrip_trailing.
Qed.

(** *** What a run that returns has written *)

Lemma log_progress_returns w m s s' v :
  log_progress w m s = (s', Ok v) -> s' = State (frames s) (trace s ++ [EvLog m]).
Proof.
  unfold log_progress, effect. destruct (log_append w m); [done|]. by intros [= <-].
Qed.

Lemma extract_returns_trace w u attribs s s' l :
  extract w u attribs s = (s', Ok l) -> trace s' = trace s ++ [EvGet u].
Proof.
  unfold extract, input. destruct (http_get w u) as [data|e]; [|done].
  unfold mbind, M_bind, emit, alloc, lift, mret, M_ret. simpl.
  destruct (table_rows data) as [rows|e]; [|done].
  destruct (scan_rows rows [] []) as [[names caps]|e]; [|done].
  by intros [= <- _].
Qed.

Lemma transform_returns_trace w df path s s' v :
  transform w df path s = (s', Ok v) -> trace s' = trace s ++ [EvReadCsv path].
Proof.
  unfold transform, input. destruct (read_rates w path) as [rate_rows|e]; [|done].
  unfold mbind at 1, M_bind at 1. unfold mbind at 1, M_bind at 1.
  unfold emit at 1, mret at 1, M_ret at 1.
  unfold mbind, M_bind.
  set (s0 := State (frames s) (trace s ++ [EvReadCsv path])).
  pose proof (add_column_trace (to_dict rate_rows) df "MC_GBP_Billion" "GBP" s0) as H1.
  destruct (add_column _ df "MC_GBP_Billion" "GBP" s0) as [s1 [[]|e]]; [|done].
  pose proof (add_column_trace (to_dict rate_rows) df "MC_EUR_Billion" "EUR" s1) as H2.
  destruct (add_column _ df "MC_EUR_Billion" "EUR" s1) as [s2 [[]|e]]; [|done].
  pose proof (add_column_trace (to_dict rate_rows) df "MC_INR_Billion" "INR" s2) as H3.
  destruct (add_column _ df "MC_INR_Billion" "INR" s2) as [s3 [[]|e]]; [|done].
  simpl in *. intros [= <- _]. congruence.
Qed.

Lemma from_load_returns w df s :
  (from_load w df s).2 = Ok tt ->
  ∃ d answer,
    frames s !! df = Some d
    ∧ trace (from_load w df s).1
      = trace s ++ [EvWriteCsv output_cv_path (to_csv d); EvLog "Data saved to CSV file"]
               ++ session d answer.
Proof.
  destruct s as [fs pre].
  unfold from_load, from_connect, load_to_csv, connect, log_progress, load_to_db,
    run_query, close.
  unfold effect, input, mbind, M_bind, load, emit, lift, mret, M_ret. simpl.
  destruct (fs !! df) as [d|] eqn:Hd; simpl; [|intros; discriminate].
  destruct (file_write w output_cv_path (to_csv d)); simpl; [intros; discriminate|].
  destruct (log_append w "Data saved to CSV file"); simpl; [intros; discriminate|].
  destruct (db_connect w "Banks.db"); simpl; [intros; discriminate|].
  destruct (log_append w "SQL Connection initiated."); simpl; [intros; discriminate|].
  rewrite Hd. simpl.
  destruct (db_to_sql w (Connection "Banks.db") table_name d); simpl;
    [intros; discriminate|].
  destruct (log_append w "Data loaded to Database as table. Running the query");
    simpl; [intros; discriminate|].
  destruct (db_read_sql w (Connection "Banks.db") query_statement) as [answer|];
    simpl; [|intros; discriminate].
  destruct (log_append w "Process Complete."); simpl; [intros; discriminate|].
  destruct (db_close w (Connection "Banks.db")); simpl; [intros; discriminate|].
  intros _. exists d, answer. split; [done|]. by rewrite <- !app_assoc.
Qed.

(** X15.  A run that returns has written one and the same frame twice: its
    trace is the complete script, in which the text written to the CSV file
    is the CSV text of the frame written to the table. *)
Theorem main_returns_same_frame w :
  (main w start).2 = Ok tt ->
  ∃ d answer, trace (main w start).1 = script_trace (to_csv d) d answer.
Proof.
  unfold main.
  apply bind_cases; [intros s1 [] H1|done]. apply log_progress_returns in H1 as ->.
  apply bind_cases; [intros s2 df0 H2|done]. apply extract_returns_trace in H2.
  apply bind_cases; [intros s3 [] H3|done]. apply log_progress_returns in H3 as ->.
  apply bind_cases; [intros s4 df H4|done]. apply transform_returns_trace in H4.
  apply bind_cases; [intros s5 [] H5|done]. apply log_progress_returns in H5 as ->.
  intros Hret. destruct (from_load_returns w df _ Hret) as (d & answer & _ & Ht).
  exists d, answer.
  etrans; [exact Ht|]. simpl. by rewrite H4, H2.
Qed.

Lemma main_returns_same_frame_witness :
  (main (quiet (Ok example_page) (Ok example_rates)) start).2 = Ok tt
  ∧ ∃ d answer,
      trace (main (quiet (Ok example_page) (Ok example_rates)) start).1
      = script_trace (to_csv d) d answer.
Proof.
  assert ((main (quiet (Ok example_page) (Ok example_rates)) start).2 = Ok tt) as H
      by (vm_compute; reflexivity).
  split; [exact H|].
  exact (main_returns_same_frame (quiet (Ok example_page) (Ok example_rates)) H).
Defined.

End More.
